(** * GPUTasksContext: frame-synchronised bookkeeping of asynchronous GPU tasks

    Shallow embedding of [Source/Engine/Graphics/Async/GPUTasksContext.cpp]
    (FlaxEngine).  The context keeps the tasks that were executed but not yet
    synchronised in [_tasksDone], advances [_currentSyncPoint] once per frame
    and, on every frame begin, sweeps the pending tasks.

    Layout of the development:
    - [Outcome]: results of code that may stop on a failed [ASSERT];
    - [Array]: the engine's dynamic array, as far as the context uses it;
    - [GPUTaskClass]: the virtual interface of [GPUTask];
    - [Machine]: the context, the task objects it points to, and the log of
      calls the context makes;
    - the member functions of [GPUTasksContext];
    - the sweep as one pass over a list, and its agreement with the index loop;
    - the properties of the member functions. *)

From Stdlib Require Import List ZArith Lia Bool Arith.
Import ListNotations.
Local Open Scope Z_scope.

(** ** Outcomes *)

(** A member function either returns, or stops the process on a failed
    [ASSERT].  [OutOfFuel] is the third outcome of the bounded model of the
    [for] loop of [OnFrameBegin]; [sweep_loop_runs] shows that it never
    happens. *)
Inductive Outcome (A : Type) : Type :=
| Return (a : A)
| AssertFailed
| OutOfFuel.

Arguments Return {A} a.
Arguments AssertFailed {A}.
Arguments OutOfFuel {A}.

Definition bind {A B : Type} (c : Outcome A) (k : A -> Outcome B) : Outcome B :=
  match c with
  | Return a => k a
  | AssertFailed => AssertFailed
  | OutOfFuel => OutOfFuel
  end.

Notation "x <- c ;; k" := (bind c (fun x => k))
  (at level 61, c at next level, right associativity).

(** ** The dynamic array *)

(** Modelled from the spec: [Array<T>] of [Engine/Core/Collections/Array.h],
    which is not among the sources.  The spec describes the pending tasks as
    "an ordered sequence of task references, insertion order = submission
    order": [Add] appends at the end, the removals keep the order of the
    remaining items, [Remove] does nothing when the item is absent, and an
    index outside [0, Count) is a failed assertion. *)
Module Array.
Section Ops.
Context {T : Type}.

(** [Array(int32 capacity)]: storage is reserved, no item is held. *)
Definition WithCapacity (capacity : Z) : list T := [].

Definition Count (a : list T) : Z := Z.of_nat (length a).

Definition Add (item : T) (a : list T) : list T := a ++ [item].

Definition Clear (a : list T) : list T := [].

Definition InRange (index : Z) (a : list T) : bool :=
  (0 <=? index) && (index <? Count a).

(** [operator[]] *)
Definition At (a : list T) (index : Z) : Outcome T :=
  if InRange index a then
    match nth_error a (Z.to_nat index) with
    | Some item => Return item
    | None => AssertFailed
    end
  else AssertFailed.

Definition RemoveAt (index : Z) (a : list T) : Outcome (list T) :=
  if InRange index a then
    Return (firstn (Z.to_nat index) a ++ skipn (S (Z.to_nat index)) a)
  else AssertFailed.

Variable eqb : T -> T -> bool.

(** Removes the first occurrence of [item], if there is one. *)
Fixpoint Remove (item : T) (a : list T) : list T :=
  match a with
  | [] => []
  | x :: rest => if eqb item x then rest else x :: Remove item rest
  end.
End Ops.
End Array.

(** ** Tasks *)

(** Modelled from the spec: the states of a task ([TaskState] is declared in
    [Engine/Threading/Task.h], not among the sources).  The context itself only
    ever tests for [Finished]. *)
Inductive TaskState : Type := Queued | Executing | Finished | Canceled.

Definition IsFinished (s : TaskState) : bool :=
  match s with Finished => true | _ => false end.

(** Modelled from the spec: [GPUSyncPoint] and the type of
    [_totalTasksDoneCount] are declared in headers that are not among the
    sources.  The spec describes both as monotonically increasing integer
    counters that do not wrap within the engine's lifetime; they are integers
    here. *)
Definition GPUSyncPoint : Type := Z.

(** A [GPUTask*] is either [nullptr] or the address of a task object. *)
Definition GPUTask : Type := nat.
Definition GPUTaskPtr : Type := option GPUTask.
Definition nullptr : GPUTaskPtr := None.

(** [GPUContext*]: an opaque handle of the rendering device. *)
Definition GPUContext : Type := nat.

Record GPUDevice : Type := mkDevice {
  GetMainContext : GPUContext;
  CreateContext : bool -> GPUContext
}.

(** [#define GPU_TASKS_USE_DEDICATED_CONTEXT 0] *)
Definition GPU_TASKS_USE_DEDICATED_CONTEXT : bool := false.

(** The data members of [GPUTasksContext]. *)
Record GPUTasksContext : Type := mkContext {
  GPU : GPUContext;
  _currentSyncPoint : GPUSyncPoint;
  _tasksDone : list GPUTask;
  _totalTasksDoneCount : Z
}.

Definition set_currentSyncPoint (v : GPUSyncPoint) (c : GPUTasksContext) :=
  mkContext (GPU c) v (_tasksDone c) (_totalTasksDoneCount c).
Definition set_tasksDone (v : list GPUTask) (c : GPUTasksContext) :=
  mkContext (GPU c) (_currentSyncPoint c) v (_totalTasksDoneCount c).
Definition set_totalTasksDoneCount (v : Z) (c : GPUTasksContext) :=
  mkContext (GPU c) (_currentSyncPoint c) (_tasksDone c) v.

(** The virtual interface of [GPUTask] that the context calls.  [GPUTask.h]
    and [GPUTask.cpp] are not among the sources, so the methods are the
    parameters of the development: every result below holds for every
    implementation.  A method acts on the object it is called on; [Execute]
    is handed the context it runs in. *)
Class GPUTaskClass (Obj : Type) : Type := {
  GetState : Obj -> TaskState;
  GetSyncPoint : Obj -> GPUSyncPoint;
  Execute : GPUTasksContext -> Obj -> Obj;
  Sync : Obj -> Obj;
  CancelSync : Obj -> Obj
}.

(** What the context does to the outside, in the order it does it. *)
Inductive Event : Type :=
| EvGetSyncPoint (task : GPUTask)
| EvGetState (task : GPUTask)
| EvSync (task : GPUTask)
| EvCancelSync (task : GPUTask)
| EvExecute (task : GPUTask) (context : GPUTasksContext)
| EvLogWarning (task : GPUTask)     (* "{0} has been canceled before a sync" *)
| EvGPUFrameBegin (gpu : GPUContext)
| EvGPUFrameEnd (gpu : GPUContext)
| EvDeleteGPU (gpu : GPUContext).

Inductive Thread : Type := MainThread | WorkerThread (id : nat).

Definition IsInMainThread (t : Thread) : bool :=
  match t with MainThread => true | WorkerThread _ => false end.

(** The tasks of the events of one kind, in the order of the log. *)
Definition visited (l : list Event) : list GPUTask :=
  flat_map (fun e => match e with EvGetSyncPoint t => [t] | _ => [] end) l.
Definition synced (l : list Event) : list GPUTask :=
  flat_map (fun e => match e with EvSync t => [t] | _ => [] end) l.
Definition cancelled (l : list Event) : list GPUTask :=
  flat_map (fun e => match e with EvCancelSync t => [t] | _ => [] end) l.
Definition warned (l : list Event) : list GPUTask :=
  flat_map (fun e => match e with EvLogWarning t => [t] | _ => [] end) l.

(** ** The machine and the member functions *)

Section TasksContext.
Context {Obj : Type} {TaskImpl : GPUTaskClass Obj}.

(** The context, the task objects its pointers refer to, and the log. *)
Record Machine : Type := mkMachine {
  ctx : GPUTasksContext;
  heap : GPUTask -> Obj;
  log : list Event
}.

Definition upd (h : GPUTask -> Obj) (t : GPUTask) (o : Obj) : GPUTask -> Obj :=
  fun u => if Nat.eqb u t then o else h u.

Definition emit (e : Event) (m : Machine) : Machine :=
  mkMachine (ctx m) (heap m) (log m ++ [e]).

(** [task->method()] for a method that changes the task. *)
Definition invoke (method : Obj -> Obj) (task : GPUTask) (m : Machine) : Machine :=
  mkMachine (ctx m) (upd (heap m) task (method (heap m task))) (log m).

Definition with_ctx (f : GPUTasksContext -> GPUTasksContext) (m : Machine) : Machine :=
  mkMachine (f (ctx m)) (heap m) (log m).

(** [GPUTasksContext::GPUTasksContext(GPUDevice* device)] *)
Definition Constructor (device : GPUDevice) : GPUTasksContext :=
  mkContext
    (if GPU_TASKS_USE_DEDICATED_CONTEXT
     then CreateContext device true
     else GetMainContext device)
    10
    (Array.WithCapacity 64)
    0.

(** The loop of the destructor, over its local copy [tasks]. *)
Fixpoint cancel_tasks (tasks : list GPUTask) (m : Machine) : Machine :=
  match tasks with
  | [] => m
  | task :: rest =>
      cancel_tasks rest
        (invoke CancelSync task
           (emit (EvCancelSync task) (emit (EvLogWarning task) m)))
  end.

(** [GPUTasksContext::~GPUTasksContext()] *)
Definition Destructor (caller : Thread) (m : Machine) : Outcome Machine :=
  if IsInMainThread caller then
    let tasks := _tasksDone (ctx m) in
    let m := with_ctx (set_tasksDone (Array.Clear (_tasksDone (ctx m)))) m in
    let m := cancel_tasks tasks m in
    Return (if GPU_TASKS_USE_DEDICATED_CONTEXT
            then emit (EvDeleteGPU (GPU (ctx m))) m
            else m)
  else AssertFailed.

(** [void GPUTasksContext::Run(GPUTask* task)] *)
Definition Run (task : GPUTaskPtr) (m : Machine) : Outcome Machine :=
  match task with
  | None => AssertFailed
  | Some task =>
      let m := with_ctx (fun c => set_tasksDone (Array.Add task (_tasksDone c)) c) m in
      Return (invoke (Execute (ctx m)) task (emit (EvExecute task (ctx m)) m))
  end.

(** [void GPUTasksContext::OnCancelSync(GPUTask* task)] *)
Definition OnCancelSync (task : GPUTaskPtr) (m : Machine) : Outcome Machine :=
  match task with
  | None => AssertFailed
  | Some task =>
      let m := with_ctx (fun c => set_tasksDone (Array.Remove Nat.eqb task (_tasksDone c)) c) m in
      Return (emit (EvLogWarning task) m)
  end.

(** The body of the [for] loop of [OnFrameBegin], at index [i]: the result
    is the index after the body (before the [i++] of the loop) and the
    machine. *)
Definition sweep_body (i : Z) (m : Machine) : Outcome (Z * Machine) :=
  task <- Array.At (_tasksDone (ctx m)) i ;;
  let m := emit (EvGetSyncPoint task) m in
  let m :=
    if GetSyncPoint (heap m task) <=? _currentSyncPoint (ctx m) then
      let m := emit (EvGetState task) m in
      if negb (IsFinished (GetState (heap m task)))
      then invoke Sync task (emit (EvSync task) m)
      else m
    else m in
  let m := emit (EvGetState task) m in
  if IsFinished (GetState (heap m task)) then
    tasks <- Array.RemoveAt i (_tasksDone (ctx m)) ;;
    Return (i - 1,
            with_ctx (fun c =>
              set_totalTasksDoneCount (_totalTasksDoneCount c + 1)
                (set_tasksDone tasks c)) m)
  else Return (i, m).

(** [for (int32 i = ...; i < _tasksDone.Count(); i++) body], with a bound on
    the number of iterations. *)
Fixpoint sweep_loop (fuel : nat) (i : Z) (m : Machine) : Outcome Machine :=
  if i <? Array.Count (_tasksDone (ctx m)) then
    match fuel with
    | O => OutOfFuel
    | S fuel =>
        r <- sweep_body i m ;;
        sweep_loop fuel (fst r + 1) (snd r)
    end
  else Return m.

(** [void GPUTasksContext::OnFrameBegin()].  Every iteration of the loop
    brings [i] and [Count()] closer by one, so [Count()] iterations are
    enough. *)
Definition OnFrameBegin (m : Machine) : Outcome Machine :=
  let m := if GPU_TASKS_USE_DEDICATED_CONTEXT
           then emit (EvGPUFrameBegin (GPU (ctx m))) m else m in
  let m := with_ctx (fun c => set_currentSyncPoint (_currentSyncPoint c + 1) c) m in
  sweep_loop (length (_tasksDone (ctx m))) 0 m.

(** [void GPUTasksContext::OnFrameEnd()] *)
Definition OnFrameEnd (m : Machine) : Outcome Machine :=
  Return (if GPU_TASKS_USE_DEDICATED_CONTEXT
          then emit (EvGPUFrameEnd (GPU (ctx m))) m else m).


(** ** The sweep as one pass over the pending tasks *)

(** What the body of the loop does with one task when the context's sync
    point is [now]: the heap after it, the calls it makes, and whether the
    task is removed. *)
Definition visit (now : GPUSyncPoint) (task : GPUTask) (h : GPUTask -> Obj)
  : (GPUTask -> Obj) * list Event * bool :=
  let o := h task in
  if GetSyncPoint o <=? now then
    if negb (IsFinished (GetState o)) then
      (upd h task (Sync o),
       [EvGetSyncPoint task; EvGetState task; EvSync task; EvGetState task],
       IsFinished (GetState (Sync o)))
    else (h, [EvGetSyncPoint task; EvGetState task; EvGetState task], true)
  else (h, [EvGetSyncPoint task; EvGetState task], IsFinished (GetState o)).

Record Swept : Type := mkSwept {
  kept : list GPUTask;
  heap_after : GPUTask -> Obj;
  calls : list Event
}.

(** The sweep that builds the sequence of the tasks that stay, visiting
    every task once, from the first to the last. *)
Fixpoint sweep_list (now : GPUSyncPoint) (tasks : list GPUTask)
    (h : GPUTask -> Obj) : Swept :=
  match tasks with
  | [] => mkSwept [] h []
  | task :: rest =>
      let '(h1, ev, removed) := visit now task h in
      let r := sweep_list now rest h1 in
      mkSwept (if removed then kept r else task :: kept r)
              (heap_after r) (ev ++ calls r)
  end.

(** The machine a sweep leaves, given what the pass over the list says. *)
Definition swept_machine (m : Machine) (before : list GPUTask)
    (swept : list GPUTask) (r : Swept) : Machine :=
  mkMachine
    (mkContext (GPU (ctx m)) (_currentSyncPoint (ctx m))
       (before ++ kept r)
       (_totalTasksDoneCount (ctx m)
        + (Z.of_nat (length swept) - Z.of_nat (length (kept r)))))
    (heap_after r)
    (log m ++ calls r).

(** A sequence of member-function calls, as the frame driver and the task
    owners may issue them. *)
Inductive Op : Type :=
| OpRun (task : GPUTask)
| OpOnCancelSync (task : GPUTask)
| OpOnFrameBegin
| OpOnFrameEnd.

Definition step (op : Op) (m : Machine) : Outcome Machine :=
  match op with
  | OpRun task => Run (Some task) m
  | OpOnCancelSync task => OnCancelSync (Some task) m
  | OpOnFrameBegin => OnFrameBegin m
  | OpOnFrameEnd => OnFrameEnd m
  end.

Fixpoint run (ops : list Op) (m : Machine) : Outcome Machine :=
  match ops with
  | [] => Return m
  | op :: rest => m' <- step op m ;; run rest m'
  end.

(** The number of frames begun by a sequence of calls. *)
Definition frames (ops : list Op) : Z :=
  Z.of_nat (length (filter
    (fun op => match op with OpOnFrameBegin => true | _ => false end) ops)).

(** The number of tasks submitted, and of tasks withdrawn, by a sequence of
    calls. *)
Definition submissions (ops : list Op) : Z :=
  Z.of_nat (length (filter
    (fun op => match op with OpRun _ => true | _ => false end) ops)).

Definition withdrawals (ops : list Op) : Z :=
  Z.of_nat (length (filter
    (fun op => match op with OpOnCancelSync _ => true | _ => false end) ops)).

(** The three ways a visit can go: the task is due and not finished, so it is
    synced; the task is finished already; the task is neither due nor
    finished. *)
Inductive VisitCase (now : GPUSyncPoint) (task : GPUTask) (h : GPUTask -> Obj)
  : (GPUTask -> Obj) * list Event * bool -> Prop :=
| VisitSync :
    GetSyncPoint (h task) <= now ->
    IsFinished (GetState (h task)) = false ->
    VisitCase now task h
      (upd h task (Sync (h task)),
       [EvGetSyncPoint task; EvGetState task; EvSync task; EvGetState task],
       IsFinished (GetState (Sync (h task))))
| VisitFinished ev :
    IsFinished (GetState (h task)) = true ->
    visited ev = [task] -> synced ev = [] ->
    VisitCase now task h (h, ev, true)
| VisitWait :
    now < GetSyncPoint (h task) ->
    IsFinished (GetState (h task)) = false ->
    VisitCase now task h (h, [EvGetSyncPoint task; EvGetState task], false).

End TasksContext.

Arguments Machine Obj : clear implicits.
Arguments Swept Obj : clear implicits.

(** ** A task implementation *)

(** Modelled from the spec: a task as the spec's section on the task state
    machine describes it ([GPUTask.cpp] is not among the sources).  [Execute]
    leaves [Queued] and sets the sync point to the frame by which the work is
    done, [latency] frames after the current one; work flagged [immediate]
    completes within [Execute].  [Sync] moves a task that is not in a terminal
    state to [Finished] and is idempotent; [CancelSync] moves it to
    [Canceled].  The general results do not depend on this implementation; it
    instantiates them. *)
Module SpecTask.

Record Task : Type := mkTask {
  state : TaskState;
  syncPoint : GPUSyncPoint;
  latency : Z;
  immediate : bool
}.

Definition execute (c : GPUTasksContext) (o : Task) : Task :=
  match state o with
  | Queued =>
      mkTask (if immediate o then Finished else Executing)
             (_currentSyncPoint c + latency o) (latency o) (immediate o)
  | _ => o
  end.

Definition sync (o : Task) : Task :=
  match state o with
  | Queued | Executing => mkTask Finished (syncPoint o) (latency o) (immediate o)
  | Finished | Canceled => o
  end.

Definition cancelSync (o : Task) : Task :=
  mkTask Canceled (syncPoint o) (latency o) (immediate o).

#[global] Instance Impl : GPUTaskClass Task := {
  GetState := state;
  GetSyncPoint := syncPoint;
  Execute := execute;
  Sync := sync;
  CancelSync := cancelSync
}.

(** A freshly created task whose work takes [n] frames. *)
Definition fresh (n : Z) : Task := mkTask Queued 0 n false.

(** A freshly created task whose work completes within [Execute]. *)
Definition trivial : Task := mkTask Queued 0 0 true.

(** A task that was executed and waits for sync point [p]. *)
Definition waiting (p : GPUSyncPoint) : Task := mkTask Executing p 0 false.

(** A task that is finished, with sync point [p]. *)
Definition done (p : GPUSyncPoint) : Task := mkTask Finished p 0 false.

Definition device : GPUDevice := mkDevice 1%nat (fun _ => 2%nat).

(** The machine right after construction, every task object being [o]. *)
Definition boot (o : Task) : Machine Task :=
  mkMachine (Constructor device) (fun _ => o) [].

(** A machine whose context has sync point [now], the pending tasks [tasks]
    and [n] tasks completed, with the task objects [objs]. *)
Definition pending_at (now : GPUSyncPoint) (tasks : list GPUTask) (n : Z)
    (objs : GPUTask -> Task) : Machine Task :=
  mkMachine (mkContext 1%nat now tasks n) objs [].

End SpecTask.

(** Normalises both sides of an equation between machines. *)
Ltac machine_eq :=
  unfold with_ctx, emit, invoke, set_totalTasksDoneCount, set_tasksDone,
    set_currentSyncPoint;
  simpl; rewrite <- ?app_assoc; simpl; try reflexivity.

(** * Properties *)

Section Properties.
Context {Obj : Type} {TaskImpl : GPUTaskClass Obj}.

Implicit Types (m : Machine Obj) (h : GPUTask -> Obj) (t task : GPUTask)
  (tasks pre post : list GPUTask) (now : GPUSyncPoint).

(** ** Facts about the array *)

Lemma At_middle pre t post :
  Array.At (pre ++ t :: post) (Z.of_nat (length pre)) = Return t.
Proof.
  unfold Array.At, Array.InRange, Array.Count.
  rewrite length_app; cbn [length].
  replace ((0 <=? Z.of_nat (length pre)) &&
           (Z.of_nat (length pre) <? Z.of_nat (length pre + S (length post))))
    with true by (symmetry; apply andb_true_iff; split; [apply Z.leb_le|apply Z.ltb_lt]; lia).
  rewrite Nat2Z.id, nth_error_app2 by lia.
  now rewrite Nat.sub_diag.
Qed.

Lemma RemoveAt_middle pre t post :
  Array.RemoveAt (Z.of_nat (length pre)) (pre ++ t :: post) = Return (pre ++ post).
Proof.
  unfold Array.RemoveAt, Array.InRange, Array.Count.
  rewrite length_app; cbn [length].
  replace ((0 <=? Z.of_nat (length pre)) &&
           (Z.of_nat (length pre) <? Z.of_nat (length pre + S (length post))))
    with true by (symmetry; apply andb_true_iff; split; [apply Z.leb_le|apply Z.ltb_lt]; lia).
  rewrite Nat2Z.id.
  rewrite firstn_app, Nat.sub_diag, firstn_all; cbn [firstn]; rewrite app_nil_r.
  rewrite skipn_app, skipn_all2 by lia.
  replace (S (length pre) - length pre)%nat with 1%nat by lia.
  reflexivity.
Qed.


Lemma upd_same h t (o : Obj) : upd h t o t = o.
Proof. unfold upd. now rewrite Nat.eqb_refl. Qed.

Lemma upd_other h t u (o : Obj) : u <> t -> upd h t o u = h u.
Proof. unfold upd. intros Hne. now apply Nat.eqb_neq in Hne as ->. Qed.

(** ** The index loop and the pass over the list agree *)

(** One iteration at the index of [t]: the body does to [t] what [visit]
    says, and either takes [t] out and steps the index back, or leaves both. *)
Lemma sweep_body_visit m pre t post :
  _tasksDone (ctx m) = pre ++ t :: post ->
  sweep_body (Z.of_nat (length pre)) m =
    let '(h1, ev, removed) := visit (_currentSyncPoint (ctx m)) t (heap m) in
    if removed then
      Return (Z.of_nat (length pre) - 1,
              mkMachine
                (mkContext (GPU (ctx m)) (_currentSyncPoint (ctx m))
                   (pre ++ post) (_totalTasksDoneCount (ctx m) + 1))
                h1 (log m ++ ev))
    else Return (Z.of_nat (length pre), mkMachine (ctx m) h1 (log m ++ ev)).
Proof.
  intros Htasks. unfold sweep_body, visit.
  rewrite Htasks, At_middle. unfold emit, invoke. simpl.
  destruct (GetSyncPoint (heap m t) <=? _currentSyncPoint (ctx m)); simpl.
  - destruct (IsFinished (GetState (heap m t))) eqn:Hfin; simpl.
    + rewrite Hfin, Htasks, RemoveAt_middle. machine_eq.
    + rewrite upd_same.
      destruct (IsFinished (GetState (Sync (heap m t)))); simpl.
      * rewrite Htasks, RemoveAt_middle. machine_eq.
      * machine_eq.
  - destruct (IsFinished (GetState (heap m t))); simpl.
    + rewrite Htasks, RemoveAt_middle. machine_eq.
    + machine_eq.
Qed.

Lemma swept_machine_eq m before swept (r : Swept Obj) c' h' l' :
  c' = mkContext (GPU (ctx m)) (_currentSyncPoint (ctx m)) (before ++ kept r)
         (_totalTasksDoneCount (ctx m)
          + (Z.of_nat (length swept) - Z.of_nat (length (kept r)))) ->
  h' = heap_after r -> l' = log m ++ calls r ->
  mkMachine c' h' l' = swept_machine m before swept r.
Proof. now intros -> -> ->. Qed.

(** The loop started at the index that follows [pre], with the tasks [post]
    still to visit, ends (with [length post] iterations at most) in the
    machine that the pass over [post] describes. *)
Lemma sweep_loop_list post : forall pre m fuel,
  _tasksDone (ctx m) = pre ++ post ->
  (length post <= fuel)%nat ->
  sweep_loop fuel (Z.of_nat (length pre)) m =
    Return (swept_machine m pre post
              (sweep_list (_currentSyncPoint (ctx m)) post (heap m))).
Proof.
  induction post as [|t post IH]; intros pre m fuel Htasks Hfuel.
  - assert (Hstop : (Z.of_nat (length pre) <? Array.Count (_tasksDone (ctx m))) = false).
    { apply Z.ltb_ge. unfold Array.Count. rewrite Htasks, app_nil_r. lia. }
    destruct fuel; cbn [sweep_loop]; rewrite Hstop; f_equal;
      destruct m as [[g p ts n] h l]; cbn in *; subst ts;
      unfold swept_machine; cbn; now rewrite Z.add_0_r, !app_nil_r.
  - assert (Hgo : (Z.of_nat (length pre) <? Array.Count (_tasksDone (ctx m))) = true).
    { apply Z.ltb_lt. unfold Array.Count. rewrite Htasks, length_app. cbn [length]. lia. }
    destruct fuel as [|fuel]; [cbn [length] in Hfuel; lia|].
    cbn [sweep_loop]. rewrite Hgo, (sweep_body_visit m pre t post Htasks).
    cbn [sweep_list].
    destruct (visit (_currentSyncPoint (ctx m)) t (heap m)) as [[h1 ev] removed].
    destruct removed; cbn [bind fst snd].
    + replace (Z.of_nat (length pre) - 1 + 1) with (Z.of_nat (length pre)) by lia.
      rewrite IH by (cbn [length] in Hfuel; cbn; (reflexivity || lia)).
      f_equal. unfold swept_machine at 1. cbn [ctx heap log GPU _currentSyncPoint
        _tasksDone _totalTasksDoneCount].
      apply swept_machine_eq; cbn [kept heap_after calls length].
      * f_equal. lia.
      * reflexivity.
      * now rewrite app_assoc.
    + replace (Z.of_nat (length pre) + 1) with (Z.of_nat (length (pre ++ [t])))
        by (rewrite length_app; cbn [length]; lia).
      rewrite IH.
      * f_equal. unfold swept_machine at 1. cbn [ctx heap log GPU _currentSyncPoint
          _tasksDone _totalTasksDoneCount].
        apply swept_machine_eq; cbn [kept heap_after calls length].
        -- f_equal; [now rewrite <- app_assoc | lia].
        -- reflexivity.
        -- now rewrite app_assoc.
      * cbn [ctx]. rewrite Htasks. now rewrite <- app_assoc.
      * cbn [length] in Hfuel. lia.
Qed.

(** [OnFrameBegin] returns, and its result is the pass over the pending
    tasks at the advanced sync point. *)
Lemma OnFrameBegin_sweep m :
  OnFrameBegin m =
    Return (swept_machine
              (with_ctx (fun c => set_currentSyncPoint (_currentSyncPoint c + 1) c) m)
              [] (_tasksDone (ctx m))
              (sweep_list (_currentSyncPoint (ctx m) + 1) (_tasksDone (ctx m)) (heap m))).
Proof.
  unfold OnFrameBegin. cbn [GPU_TASKS_USE_DEDICATED_CONTEXT].
  change 0 with (Z.of_nat (@length GPUTask [])).
  rewrite (sweep_loop_list (_tasksDone (ctx m)) []); [reflexivity|reflexivity|].
  cbn. lia.
Qed.

(** The loop never runs out of iterations, whatever the tasks do. *)
Lemma sweep_loop_runs m : exists m', OnFrameBegin m = Return m'.
Proof. eexists. apply OnFrameBegin_sweep. Qed.

(** ** One visit *)

Lemma IsFinished_true (s : TaskState) : IsFinished s = true <-> s = Finished.
Proof. destruct s; cbn; split; congruence. Qed.

Lemma IsFinished_false (s : TaskState) : IsFinished s = false <-> s <> Finished.
Proof. destruct s; cbn; split; congruence. Qed.

Lemma visit_case now task h : VisitCase now task h (visit now task h).
Proof.
  unfold visit.
  destruct (Z.leb_spec (GetSyncPoint (h task)) now) as [Hdue|Hwait].
  - destruct (IsFinished (GetState (h task))) eqn:Hfin; cbn [negb].
    + now apply VisitFinished.
    + now apply VisitSync.
  - destruct (IsFinished (GetState (h task))) eqn:Hfin.
    + now apply VisitFinished.
    + now apply VisitWait.
Qed.

Lemma visited_app (l1 l2 : list Event) : visited (l1 ++ l2) = visited l1 ++ visited l2.
Proof. apply flat_map_app. Qed.

Lemma synced_app (l1 l2 : list Event) : synced (l1 ++ l2) = synced l1 ++ synced l2.
Proof. apply flat_map_app. Qed.

Lemma cancelled_app (l1 l2 : list Event) :
  cancelled (l1 ++ l2) = cancelled l1 ++ cancelled l2.
Proof. apply flat_map_app. Qed.

Lemma warned_app (l1 l2 : list Event) : warned (l1 ++ l2) = warned l1 ++ warned l2.
Proof. apply flat_map_app. Qed.

(** ** The pass over the list *)

(** Every pending task is visited once, from the first to the last, whatever
    is removed on the way. *)
Lemma sweep_visited now tasks : forall h,
  visited (calls (sweep_list now tasks h)) = tasks.
Proof.
  induction tasks as [|u rest IH]; intros h; [reflexivity|].
  cbn [sweep_list].
  destruct (visit_case now u h); cbn [calls]; rewrite visited_app, IH;
    try reflexivity.
  now match goal with H : visited _ = _ |- _ => rewrite H end.
Qed.

(** A task that is finished is taken out without a call of [Sync]. *)
Lemma sweep_finished now t tasks : forall h,
  IsFinished (GetState (h t)) = true ->
  let r := sweep_list now tasks h in
  ~ In t (kept r) /\ ~ In t (synced (calls r)) /\ heap_after r t = h t.
Proof.
  induction tasks as [|u rest IH]; intros h Hfin; [cbn; tauto|].
  cbn [sweep_list].
  destruct (Nat.eq_dec u t) as [->|Hne].
  - destruct (visit_case now t h) as [Hdue Hnot|ev _ Hv Hs|Hwait Hnot];
      try congruence.
    destruct (IH h Hfin) as (Hk & Hsy & Hh).
    cbn [kept calls heap_after]. rewrite synced_app, Hs. cbn [app]. tauto.
  - destruct (visit_case now u h) as [Hdue Hnot|ev _ Hv Hs|Hwait Hnot].
    + destruct (IH (upd h u (Sync (h u)))) as (Hk & Hsy & Hh).
      { now rewrite upd_other by congruence. }
      cbn [kept calls heap_after]. rewrite synced_app, Hh, upd_other by congruence.
      repeat split;
        [destruct (IsFinished (GetState (Sync (h u))))|]; cbn; intuition congruence.
    + destruct (IH h Hfin) as (Hk & Hsy & Hh).
      cbn [kept calls heap_after]. rewrite synced_app, Hs. cbn [app]. tauto.
    + destruct (IH h Hfin) as (Hk & Hsy & Hh).
      cbn [kept calls heap_after]. rewrite synced_app. cbn.
      intuition congruence.
Qed.

(** A task whose sync point lies beyond [now] is not synced and not changed;
    unless it is finished, it stays as often as it was pending. *)
Lemma sweep_not_due now t tasks : forall h,
  now < GetSyncPoint (h t) ->
  let r := sweep_list now tasks h in
  ~ In t (synced (calls r)) /\ heap_after r t = h t /\
  (IsFinished (GetState (h t)) = false ->
   count_occ Nat.eq_dec (kept r) t = count_occ Nat.eq_dec tasks t).
Proof.
  induction tasks as [|u rest IH]; intros h Hlt; [cbn; tauto|].
  cbn [sweep_list].
  destruct (Nat.eq_dec u t) as [->|Hne].
  - destruct (visit_case now t h) as [Hdue Hnot|ev Hfin Hv Hs|Hwait Hnot];
      [lia| |]; destruct (IH h Hlt) as (Hsy & Hh & Hk);
      cbn [kept calls heap_after]; rewrite synced_app.
    + rewrite Hs. cbn [app]. split; [exact Hsy|split; [exact Hh|congruence]].
    + split; [exact Hsy|split; [exact Hh|]].
      intros Hf. cbn [count_occ].
      destruct (Nat.eq_dec t t); [|congruence]. now rewrite Hk.
  - assert (Hcount : forall l, count_occ Nat.eq_dec (u :: l) t = count_occ Nat.eq_dec l t).
    { intros l. now apply count_occ_cons_neq. }
    destruct (visit_case now u h) as [Hdue Hnot|ev Hfin Hv Hs|Hwait Hnot].
    + destruct (IH (upd h u (Sync (h u)))) as (Hsy & Hh & Hk).
      { now rewrite upd_other by congruence. }
      rewrite upd_other in Hh, Hk by congruence.
      cbn [kept calls heap_after]. rewrite synced_app, Hcount.
      split; [cbn; intuition congruence|split; [exact Hh|]].
      intros Hf. destruct (IsFinished (GetState (Sync (h u)))); rewrite ?Hcount; auto.
    + destruct (IH h Hlt) as (Hsy & Hh & Hk).
      cbn [kept calls heap_after]. rewrite synced_app, Hs, Hcount. cbn [app]. tauto.
    + destruct (IH h Hlt) as (Hsy & Hh & Hk).
      cbn [kept calls heap_after]. rewrite synced_app, !Hcount.
      split; [exact Hsy|split; [exact Hh|exact Hk]].
Qed.

(** A pending task that is due and not finished, and that [Sync] finishes, is
    synced once and taken out. *)
Lemma sweep_due now t tasks : forall h,
  In t tasks ->
  IsFinished (GetState (h t)) = false ->
  GetSyncPoint (h t) <= now ->
  GetState (Sync (h t)) = Finished ->
  let r := sweep_list now tasks h in
  ~ In t (kept r) /\
  count_occ Nat.eq_dec (synced (calls r)) t = 1%nat /\
  heap_after r t = Sync (h t).
Proof.
  induction tasks as [|u rest IH]; intros h Hin Hnot Hdue Hsync; [easy|].
  cbn [sweep_list].
  destruct (Nat.eq_dec u t) as [->|Hne].
  - destruct (visit_case now t h) as [_ _|ev Hfin _ _|Hwait _];
      [|congruence|lia].
    destruct (sweep_finished now t rest (upd h t (Sync (h t)))) as (Hk & Hsy & Hh).
    { rewrite upd_same. now apply IsFinished_true. }
    rewrite upd_same in Hh.
    replace (IsFinished (GetState (Sync (h t)))) with true
      by (symmetry; now apply IsFinished_true).
    cbn [kept calls heap_after]. rewrite synced_app.
    split; [exact Hk|split; [|exact Hh]].
    cbn [synced flat_map app count_occ].
    destruct (Nat.eq_dec t t); [|congruence].
    f_equal. now apply count_occ_not_In.
  - assert (Hin' : In t rest) by (destruct Hin; congruence).
    assert (Hcount : forall l, count_occ Nat.eq_dec (u :: l) t = count_occ Nat.eq_dec l t).
    { intros l. now apply count_occ_cons_neq. }
    destruct (visit_case now u h) as [Hdue' Hnot'|ev Hfin Hv Hs|Hwait Hnot'].
    + destruct (IH (upd h u (Sync (h u)))) as (Hk & Hsy & Hh);
        rewrite ?upd_other by congruence; auto.
      rewrite upd_other in Hh by congruence.
      cbn [kept calls heap_after]. rewrite synced_app.
      split; [|split; [|exact Hh]].
      * destruct (IsFinished (GetState (Sync (h u)))); cbn; intuition congruence.
      * cbn [synced flat_map app]. now rewrite Hcount.
    + destruct (IH h) as (Hk & Hsy & Hh); auto.
      cbn [kept calls heap_after]. rewrite synced_app, Hs. cbn [app]. tauto.
    + destruct (IH h) as (Hk & Hsy & Hh); auto.
      cbn [kept calls heap_after]. rewrite synced_app.
      split; [cbn; intuition congruence|split; [exact Hsy|exact Hh]].
Qed.

(** When every pending task is finished, or due and finished by [Sync], the
    pass keeps none and leaves every one of them finished. *)
Lemma sweep_all_ready now tasks : forall h,
  (forall t, In t tasks ->
     IsFinished (GetState (h t)) = true \/
     (GetSyncPoint (h t) <= now /\ GetState (Sync (h t)) = Finished)) ->
  let r := sweep_list now tasks h in
  kept r = [] /\
  forall t, In t tasks -> GetState (heap_after r t) = Finished.
Proof.
  induction tasks as [|u rest IH]; intros h Hready; [now split|].
  cbn [sweep_list].
  assert (Hrest : forall h',
    (forall t, In t rest -> t <> u -> h' t = h t) ->
    (IsFinished (GetState (h' u)) = true \/ h' u = h u) ->
    forall t, In t rest ->
      IsFinished (GetState (h' t)) = true \/
      (GetSyncPoint (h' t) <= now /\ GetState (Sync (h' t)) = Finished)).
  { intros h' Hsame Hu t Hin. destruct (Nat.eq_dec t u) as [->|Hne].
    - destruct Hu as [Hu|Hu]; [now left|]. rewrite Hu. apply Hready. now left.
    - rewrite Hsame by assumption. apply Hready. now right. }
  destruct (visit_case now u h) as [Hdue Hnot|ev Hfin Hv Hs|Hwait Hnot].
  - destruct (Hready u (or_introl eq_refl)) as [Hf|[_ Hsync]]; [congruence|].
    destruct (IH (upd h u (Sync (h u)))) as (Hk & Hfinal).
    { apply Hrest.
      - intros t _ Hne. now apply upd_other.
      - left. rewrite upd_same. now apply IsFinished_true. }
    replace (IsFinished (GetState (Sync (h u)))) with true
      by (symmetry; now apply IsFinished_true).
    cbn [kept heap_after]. split; [exact Hk|].
    intros t [<-|Hin]; [|now apply Hfinal].
    destruct (sweep_finished now u rest (upd h u (Sync (h u)))) as (_ & _ & Hh).
    { rewrite upd_same. now apply IsFinished_true. }
    now rewrite Hh, upd_same.
  - destruct (IH h) as (Hk & Hfinal).
    { apply Hrest; auto. }
    cbn [kept heap_after]. split; [exact Hk|].
    intros t [<-|Hin]; [|now apply Hfinal].
    destruct (sweep_finished now u rest h Hfin) as (_ & _ & Hh).
    rewrite Hh. now apply IsFinished_true.
  - destruct (Hready u (or_introl eq_refl)) as [Hf|[Hdue _]]; [congruence|lia].
Qed.

(** The pass only takes tasks out. *)
Lemma sweep_kept_length now tasks : forall h,
  (length (kept (sweep_list now tasks h)) <= length tasks)%nat.
Proof.
  induction tasks as [|u rest IH]; intros h; [reflexivity|].
  cbn [sweep_list].
  destruct (visit now u h) as [[h1 ev] removed].
  specialize (IH h1). destruct removed; cbn [kept length]; lia.
Qed.

Lemma sweep_kept_shorter now t tasks : forall h,
  In t tasks -> ~ In t (kept (sweep_list now tasks h)) ->
  (length (kept (sweep_list now tasks h)) < length tasks)%nat.
Proof.
  induction tasks as [|u rest IH]; intros h Hin Hout; [easy|].
  cbn [sweep_list] in *.
  destruct (visit now u h) as [[h1 ev] removed].
  destruct removed; cbn [kept length] in *.
  - pose proof (sweep_kept_length now rest h1). lia.
  - assert (In t rest) by (destruct Hin; [subst; cbn in Hout; tauto|assumption]).
    specialize (IH h1). cbn in Hout. apply Nat.succ_lt_mono in IH; tauto || lia.
Qed.

Lemma In_synced t (l : list Event) : In t (synced l) <-> In (EvSync t) l.
Proof.
  unfold synced. rewrite in_flat_map. split.
  - intros (e & He & Ht). destruct e; cbn in Ht; try tauto.
    destruct Ht as [->|[]]. exact He.
  - intros He. exists (EvSync t). split; [exact He|now left].
Qed.

(** ** The frame sweep *)

(** C1: when the pending sequence is A, B, C in submission order, each with a
    sync point not beyond the context's current one and each finished by
    [Sync], one [OnFrameBegin] visits A, B, C once each in that order, leaves
    the pending sequence empty, and raises the count of completed tasks by
    exactly 3. *)
Theorem C1_sweep_removes_three_in_order m A B C :
  _tasksDone (ctx m) = [A; B; C] ->
  (forall t, In t [A; B; C] ->
     GetSyncPoint (heap m t) <= _currentSyncPoint (ctx m) /\
     GetState (Sync (heap m t)) = Finished) ->
  exists m' ev,
    OnFrameBegin m = Return m' /\
    log m' = log m ++ ev /\
    visited ev = [A; B; C] /\
    _tasksDone (ctx m') = [] /\
    _totalTasksDoneCount (ctx m') = _totalTasksDoneCount (ctx m) + 3 /\
    (forall t, In t [A; B; C] -> GetState (heap m' t) = Finished).
Proof.
  intros Htasks Hready.
  rewrite OnFrameBegin_sweep.
  set (r := sweep_list (_currentSyncPoint (ctx m) + 1) (_tasksDone (ctx m)) (heap m)).
  destruct (sweep_all_ready (_currentSyncPoint (ctx m) + 1) (_tasksDone (ctx m)) (heap m))
    as (Hkept & Hfinal).
  { intros t Hin. rewrite Htasks in Hin. destruct (Hready t Hin) as (Hdue & Hsync).
    right. split; [lia|exact Hsync]. }
  fold r in Hkept, Hfinal.
  exists (swept_machine
            (with_ctx (fun c => set_currentSyncPoint (_currentSyncPoint c + 1) c) m)
            [] (_tasksDone (ctx m)) r), (calls r).
  split; [reflexivity|]. split; [reflexivity|].
  split; [unfold r; now rewrite sweep_visited|].
  unfold swept_machine.
  cbn [ctx heap log _tasksDone _totalTasksDoneCount with_ctx set_currentSyncPoint].
  rewrite Hkept, Htasks. split; [reflexivity|]. split; [cbn; lia|].
  intros t Hin. apply Hfinal. now rewrite Htasks.
Qed.

Lemma step_sync_point op m :
  exists m', step op m = Return m' /\
    _currentSyncPoint (ctx m') =
      _currentSyncPoint (ctx m) + frames [op].
Proof.
  destruct op as [t|t| |]; cbn [step].
  - eexists. split; [reflexivity|]. cbn. lia.
  - eexists. split; [reflexivity|]. cbn. lia.
  - rewrite OnFrameBegin_sweep. eexists. split; [reflexivity|]. reflexivity.
  - eexists. split; [reflexivity|]. cbn. lia.
Qed.

Lemma frames_cons op ops : frames (op :: ops) = frames [op] + frames ops.
Proof. unfold frames. destruct op; cbn [filter length]; lia. Qed.

Lemma frames_nonneg ops : 0 <= frames ops.
Proof. unfold frames. lia. Qed.

(** C2: every [OnFrameBegin] returns with the sync point exactly one greater
    than before, and over any sequence of [Run], [OnCancelSync],
    [OnFrameBegin] and [OnFrameEnd] the sync point never decreases: it grows
    by the number of frames begun. *)
Theorem C2_sync_point_advances_by_one :
  (forall m, exists m',
     OnFrameBegin m = Return m' /\
     _currentSyncPoint (ctx m') = _currentSyncPoint (ctx m) + 1) /\
  (forall ops m, exists m',
     run ops m = Return m' /\
     _currentSyncPoint (ctx m) <= _currentSyncPoint (ctx m') /\
     _currentSyncPoint (ctx m') = _currentSyncPoint (ctx m) + frames ops).
Proof.
  split.
  - intros m. rewrite OnFrameBegin_sweep. eexists. split; reflexivity.
  - induction ops as [|op ops IH]; intros m.
    + exists m. cbn. repeat split; lia.
    + destruct (step_sync_point op m) as (m1 & Hstep & Hsp).
      destruct (IH m1) as (m' & Hrun & Hle & Heq).
      exists m'. cbn [run]. rewrite Hstep. cbn [bind].
      split; [exact Hrun|].
      rewrite frames_cons.
      pose proof (frames_nonneg [op]). pose proof (frames_nonneg ops). lia.
Qed.

(** C4: a task whose sync point is strictly beyond the context's sync point
    after the increment of [OnFrameBegin] is not synced by that call, and is
    left as it was. *)
Theorem C4_no_sync_before_the_point m t :
  _currentSyncPoint (ctx m) + 1 < GetSyncPoint (heap m t) ->
  exists m' ev,
    OnFrameBegin m = Return m' /\
    log m' = log m ++ ev /\
    ~ In (EvSync t) ev /\
    heap m' t = heap m t.
Proof.
  intros Hlt. rewrite OnFrameBegin_sweep.
  destruct (sweep_not_due (_currentSyncPoint (ctx m) + 1) t (_tasksDone (ctx m)) (heap m) Hlt)
    as (Hsy & Hh & _).
  eexists. eexists. split; [reflexivity|]. split; [reflexivity|].
  split; [now rewrite <- In_synced|exact Hh].
Qed.

(** What decides whether a pending task stays is the state that the second
    test of the loop body reads at the first visit of the task, after the
    sync attempt if there was one: the task is taken out when that state is
    [Finished] and stays when it is not. *)
Lemma sweep_removal_condition now t tasks : forall h,
  In t tasks ->
  let tested :=
    if (GetSyncPoint (h t) <=? now) && negb (IsFinished (GetState (h t)))
    then Sync (h t) else h t in
  let r := sweep_list now tasks h in
  (IsFinished (GetState tested) = true -> ~ In t (kept r)) /\
  (IsFinished (GetState tested) = false -> In t (kept r)).
Proof.
  induction tasks as [|u rest IH]; intros h Hin; [destruct Hin|].
  cbn zeta. cbn [sweep_list].
  destruct (Nat.eq_dec u t) as [->|Hne].
  - destruct (visit_case now t h) as [Hdue Hnot|ev Hfin _ _|Hwait Hnot].
    + apply Z.leb_le in Hdue. rewrite Hdue, Hnot. simpl.
      destruct (IsFinished (GetState (Sync (h t)))) eqn:Hsync.
      * split; [intros _|intros Hf; congruence].
        apply (sweep_finished now t rest (upd h t (Sync (h t)))).
        now rewrite upd_same.
      * split; [intros Hf; congruence|intros _; now left].
    + rewrite Hfin, andb_false_r, Hfin. simpl.
      split; [intros _|intros Hf; congruence].
      now apply (sweep_finished now t rest h).
    + apply Z.leb_gt in Hwait. rewrite Hwait, Hnot. simpl.
      split; [intros Hf; congruence|intros _; now left].
  - assert (Hin' : In t rest) by (destruct Hin; congruence).
    destruct (visit_case now u h) as [Hdue Hnot|ev Hfin _ _|Hwait Hnot].
    + specialize (IH (upd h u (Sync (h u))) Hin'). cbn zeta in IH.
      rewrite upd_other in IH by congruence. destruct IH as (Hout & Hstay).
      simpl.
      destruct (IsFinished (GetState (Sync (h u)))); simpl;
        split; intuition congruence.
    + specialize (IH h Hin'). exact IH.
    + specialize (IH h Hin'). cbn zeta in IH. destruct IH as (Hout & Hstay).
      simpl. split; intuition congruence.
Qed.

(** C9: whether [OnFrameBegin] takes a pending task out depends on one thing
    only, the state read by the second test of the loop body (after the sync
    attempt, if the first test led to one): the task is taken out and counted
    when that state is [Finished], and stays pending when it is not.  In
    particular a task that is [Finished] is taken out and counted without a
    call of [Sync] wherever its sync point lies. *)
Theorem C9_removal_condition_is_Finished_alone m t :
  In t (_tasksDone (ctx m)) ->
  exists m' ev,
    OnFrameBegin m = Return m' /\
    log m' = log m ++ ev /\
    _totalTasksDoneCount (ctx m') =
      _totalTasksDoneCount (ctx m)
      + (Z.of_nat (length (_tasksDone (ctx m)))
         - Z.of_nat (length (_tasksDone (ctx m')))) /\
    (let tested :=
       if (GetSyncPoint (heap m t) <=? _currentSyncPoint (ctx m) + 1)
          && negb (IsFinished (GetState (heap m t)))
       then Sync (heap m t) else heap m t in
     (GetState tested = Finished ->
      ~ In t (_tasksDone (ctx m')) /\
      _totalTasksDoneCount (ctx m) < _totalTasksDoneCount (ctx m')) /\
     (GetState tested <> Finished -> In t (_tasksDone (ctx m')))) /\
    (GetState (heap m t) = Finished ->
     ~ In t (_tasksDone (ctx m')) /\
     ~ In (EvSync t) ev /\
     _totalTasksDoneCount (ctx m) < _totalTasksDoneCount (ctx m')).
Proof.
  intros Hin. rewrite OnFrameBegin_sweep.
  set (now := _currentSyncPoint (ctx m) + 1).
  set (r := sweep_list now (_tasksDone (ctx m)) (heap m)).
  assert (Hcount : ~ In t (kept r) ->
            _totalTasksDoneCount (ctx m) <
            _totalTasksDoneCount (ctx m)
            + (Z.of_nat (length (_tasksDone (ctx m))) - Z.of_nat (length (kept r)))).
  { intros Hout. pose proof (sweep_kept_shorter now t _ (heap m) Hin Hout) as Hlt.
    fold r in Hlt. lia. }
  destruct (sweep_removal_condition now t (_tasksDone (ctx m)) (heap m) Hin)
    as (Hout & Hstay).
  fold r in Hout, Hstay.
  eexists. eexists. split; [reflexivity|]. split; [reflexivity|].
  unfold swept_machine.
  cbn [ctx heap log _tasksDone _totalTasksDoneCount _currentSyncPoint with_ctx
       set_currentSyncPoint app].
  fold now. fold r.
  split; [reflexivity|]. split; [split|].
  - intros Hfin. apply IsFinished_true in Hfin. specialize (Hout Hfin).
    split; [exact Hout|now apply Hcount].
  - intros Hnot. apply IsFinished_false in Hnot. now apply Hstay.
  - intros Hfin. apply IsFinished_true in Hfin.
    destruct (sweep_finished now t (_tasksDone (ctx m)) (heap m) Hfin)
      as (Hk & Hsy & _).
    fold r in Hk, Hsy.
    split; [exact Hk|]. split; [now rewrite <- In_synced|now apply Hcount].
Qed.

(** C3, amended: a task A submitted via [Run] whose sync point is the
    context's current sync point plus two, not finished yet and finished by
    [Sync], stays pending and unsynced over the first [OnFrameBegin]; the
    second [OnFrameBegin] calls [Sync] on A once, finds it finished and takes
    it out, every task taken out being counted once: the count of completed
    tasks grows by exactly 1 when A was the only pending task. *)
Theorem C3_task_due_two_frames_ahead m A m1 :
  Run (Some A) m = Return m1 ->
  GetSyncPoint (heap m1 A) = _currentSyncPoint (ctx m1) + 2 ->
  GetState (heap m1 A) <> Finished ->
  GetState (Sync (heap m1 A)) = Finished ->
  exists m2 m3 ev1 ev2,
    OnFrameBegin m1 = Return m2 /\
    log m2 = log m1 ++ ev1 /\
    In A (_tasksDone (ctx m2)) /\
    ~ In (EvSync A) ev1 /\
    OnFrameBegin m2 = Return m3 /\
    log m3 = log m2 ++ ev2 /\
    count_occ Nat.eq_dec (synced ev2) A = 1%nat /\
    GetState (heap m3 A) = Finished /\
    ~ In A (_tasksDone (ctx m3)) /\
    _totalTasksDoneCount (ctx m3) =
      _totalTasksDoneCount (ctx m2)
      + (Z.of_nat (length (_tasksDone (ctx m2)))
         - Z.of_nat (length (_tasksDone (ctx m3)))) /\
    (_tasksDone (ctx m) = [] ->
     _totalTasksDoneCount (ctx m2) = _totalTasksDoneCount (ctx m1) /\
     _totalTasksDoneCount (ctx m3) = _totalTasksDoneCount (ctx m2) + 1).
Proof.
  intros Hrun Hpoint Hnot Hsync.
  apply IsFinished_false in Hnot.
  assert (Hpending : _tasksDone (ctx m1) = _tasksDone (ctx m) ++ [A]).
  { cbn in Hrun. injection Hrun as <-. reflexivity. }
  assert (HinA : In A (_tasksDone (ctx m1))).
  { rewrite Hpending. apply in_or_app. right. now left. }
  (* first frame *)
  set (now1 := _currentSyncPoint (ctx m1) + 1).
  set (r1 := sweep_list now1 (_tasksDone (ctx m1)) (heap m1)).
  destruct (sweep_not_due now1 A (_tasksDone (ctx m1)) (heap m1)) as (Hsy1 & Hh1 & Hk1);
    [unfold now1; lia|].
  specialize (Hk1 Hnot). fold r1 in Hsy1, Hh1, Hk1.
  assert (Hin2 : In A (kept r1)).
  { apply (count_occ_In Nat.eq_dec). rewrite Hk1.
    now apply (count_occ_In Nat.eq_dec). }
  set (m2 := swept_machine
               (with_ctx (fun c => set_currentSyncPoint (_currentSyncPoint c + 1) c) m1)
               [] (_tasksDone (ctx m1)) r1).
  (* second frame *)
  set (r2 := sweep_list (_currentSyncPoint (ctx m2) + 1) (_tasksDone (ctx m2)) (heap m2)).
  destruct (sweep_due (_currentSyncPoint (ctx m2) + 1) A (_tasksDone (ctx m2)) (heap m2))
    as (Hk2 & Hsy2 & Hh2).
  { exact Hin2. }
  { cbn. rewrite Hh1. exact Hnot. }
  { cbn. rewrite Hh1. lia. }
  { cbn. rewrite Hh1. exact Hsync. }
  fold r2 in Hk2, Hsy2, Hh2.
  exists m2,
    (swept_machine
       (with_ctx (fun c => set_currentSyncPoint (_currentSyncPoint c + 1) c) m2)
       [] (_tasksDone (ctx m2)) r2),
    (calls r1), (calls r2).
  split; [apply OnFrameBegin_sweep|]. split; [reflexivity|].
  split; [exact Hin2|]. split; [now rewrite <- In_synced|].
  split; [apply OnFrameBegin_sweep|]. split; [reflexivity|].
  split; [exact Hsy2|].
  split; [cbn [swept_machine heap]; rewrite Hh2; cbn; now rewrite Hh1|].
  split; [exact Hk2|].
  split; [reflexivity|].
  intros Hempty.
  assert (Hlen1 : length (_tasksDone (ctx m1)) = 1%nat)
    by (rewrite Hpending, Hempty; reflexivity).
  pose proof (sweep_kept_length now1 (_tasksDone (ctx m1)) (heap m1)) as Hle1.
  fold r1 in Hle1.
  assert (Hlen2 : length (kept r1) = 1%nat).
  { destruct (kept r1); [destruct Hin2|cbn [length] in *; lia]. }
  pose proof (sweep_kept_shorter _ _ _ _ Hin2 Hk2) as Hlt2.
  subst r2 m2.
  cbn [swept_machine ctx heap _totalTasksDoneCount _tasksDone _currentSyncPoint app
       with_ctx set_currentSyncPoint] in *.
  lia.
Qed.

(** ** Destruction *)

Lemma cancel_tasks_effect tasks : forall m,
  ctx (cancel_tasks tasks m) = ctx m /\
  log (cancel_tasks tasks m) =
    log m ++ flat_map (fun t => [EvLogWarning t; EvCancelSync t]) tasks.
Proof.
  induction tasks as [|t rest IH]; intros m; cbn [cancel_tasks flat_map].
  - now rewrite app_nil_r.
  - destruct (IH (invoke CancelSync t (emit (EvCancelSync t) (emit (EvLogWarning t) m))))
      as (Hc & Hl).
    rewrite Hc, Hl. split; [reflexivity|]. machine_eq.
Qed.

Lemma cancelled_warn_cancel tasks :
  cancelled (flat_map (fun t => [EvLogWarning t; EvCancelSync t]) tasks) = tasks /\
  warned (flat_map (fun t => [EvLogWarning t; EvCancelSync t]) tasks) = tasks.
Proof.
  induction tasks as [|t rest [IHc IHw]]; [now split|].
  cbn [flat_map]. rewrite cancelled_app, warned_app, IHc, IHw. now split.
Qed.

Lemma cancel_tasks_heap_other t tasks : forall m,
  ~ In t tasks -> heap (cancel_tasks tasks m) t = heap m t.
Proof.
  induction tasks as [|u rest IH]; intros m Hout; [reflexivity|].
  cbn [cancel_tasks]. rewrite IH by (intros Hin; apply Hout; now right).
  cbn. apply upd_other. intros ->. apply Hout. now left.
Qed.

Lemma cancel_tasks_heap_once t tasks : forall m,
  NoDup tasks -> In t tasks ->
  heap (cancel_tasks tasks m) t = CancelSync (heap m t).
Proof.
  induction tasks as [|u rest IH]; intros m Hnd Hin; [destruct Hin|].
  inversion Hnd as [|? ? Hu Hrest]; subst. cbn [cancel_tasks].
  destruct (Nat.eq_dec u t) as [->|Hne].
  - rewrite cancel_tasks_heap_other by assumption. cbn. apply upd_same.
  - rewrite IH by (try assumption; destruct Hin; congruence).
    cbn. f_equal. now apply upd_other.
Qed.

(** C5: destroying the context while N tasks are pending logs, for each of
    them in turn, one warning and one call of [CancelSync], N calls in all,
    and leaves the pending sequence empty; with N = 0 nothing is called.  The
    objects of the tasks that were not pending are untouched, and a task that
    was pending once has had [CancelSync] applied once. *)
Theorem C5_destructor_cancels_every_pending_task (N : nat) m :
  length (_tasksDone (ctx m)) = N ->
  exists m' ev,
    Destructor MainThread m = Return m' /\
    log m' = log m ++ ev /\
    ev = flat_map (fun t => [EvLogWarning t; EvCancelSync t]) (_tasksDone (ctx m)) /\
    cancelled ev = _tasksDone (ctx m) /\
    warned ev = _tasksDone (ctx m) /\
    length (cancelled ev) = N /\
    length (warned ev) = N /\
    _tasksDone (ctx m') = [] /\
    (N = 0%nat -> ev = []) /\
    (forall t, ~ In t (_tasksDone (ctx m)) -> heap m' t = heap m t) /\
    (NoDup (_tasksDone (ctx m)) ->
     forall t, In t (_tasksDone (ctx m)) -> heap m' t = CancelSync (heap m t)).
Proof.
  intros HN. unfold Destructor. cbn [IsInMainThread GPU_TASKS_USE_DEDICATED_CONTEXT].
  set (m0 := with_ctx (set_tasksDone (Array.Clear (_tasksDone (ctx m)))) m).
  destruct (cancel_tasks_effect (_tasksDone (ctx m)) m0) as (Hc & Hl).
  destruct (cancelled_warn_cancel (_tasksDone (ctx m))) as (Hcan & Hwarn).
  eexists. eexists. split; [reflexivity|].
  split; [exact Hl|]. split; [reflexivity|].
  rewrite Hcan, Hwarn, Hc.
  repeat (split; [assumption || reflexivity|]).
  split; [intros ->; now destruct (_tasksDone (ctx m))|].
  split.
  - intros t Hout. now rewrite cancel_tasks_heap_other.
  - intros Hnd t Hin. now rewrite cancel_tasks_heap_once.
Qed.

(** ** Submission and cancellation *)

(** C6: [Run] of a task that is not null first appends the task at the end of
    the pending sequence, all earlier pending tasks staying in place, and then
    calls the task's [Execute] with the context that already holds the task;
    it returns, and a null task is a failed assertion. *)
Theorem C6_Run_appends_then_executes m t :
  exists m',
    Run (Some t) m = Return m' /\
    _tasksDone (ctx m') = _tasksDone (ctx m) ++ [t] /\
    log m' = log m ++ [EvExecute t (ctx m')] /\
    heap m' t = Execute (ctx m') (heap m t) /\
    (forall u, u <> t -> heap m' u = heap m u) /\
    Run nullptr m = AssertFailed.
Proof.
  eexists. split; [reflexivity|]. cbn.
  split; [reflexivity|]. split; [reflexivity|].
  split; [now rewrite upd_same|].
  split; [|reflexivity]. intros u Hne. now apply upd_other.
Qed.

Lemma Remove_absent t tasks :
  ~ In t tasks -> Array.Remove Nat.eqb t tasks = tasks.
Proof.
  induction tasks as [|u rest IH]; intros Hout; [reflexivity|].
  cbn [Array.Remove]. destruct (Nat.eqb_spec t u) as [->|Hne].
  - exfalso. apply Hout. now left.
  - rewrite IH; [reflexivity|]. intros Hin. apply Hout. now right.
Qed.

Lemma Remove_present t tasks :
  In t tasks ->
  exists pre post,
    tasks = pre ++ t :: post /\ ~ In t pre /\
    Array.Remove Nat.eqb t tasks = pre ++ post.
Proof.
  induction tasks as [|u rest IH]; intros Hin; [destruct Hin|].
  cbn [Array.Remove]. destruct (Nat.eqb_spec t u) as [->|Hne].
  - exists [], rest. now repeat split.
  - destruct IH as (pre & post & -> & Hpre & Hrem).
    { destruct Hin; congruence. }
    exists (u :: pre), post. rewrite Hrem. repeat split.
    intros [Heq|Hin']; [congruence|tauto].
Qed.

Lemma Remove_NoDup t tasks :
  NoDup tasks -> ~ In t (Array.Remove Nat.eqb t tasks).
Proof.
  induction 1 as [|u rest Hu Hnd IH]; [easy|].
  cbn [Array.Remove]. destruct (Nat.eqb_spec t u) as [->|Hne]; [exact Hu|].
  intros [Heq|Hin]; [congruence|tauto].
Qed.

(** C7: [OnCancelSync] of a task that is not null returns; it takes the first
    occurrence of the task out of the pending sequence when the task is
    pending, and leaves the whole context as it was when the task is not
    pending; it logs a warning and calls nothing on the task, [CancelSync]
    included. *)
Theorem C7_OnCancelSync_removes_if_present m t :
  exists m' ev,
    OnCancelSync (Some t) m = Return m' /\
    log m' = log m ++ ev /\ ev = [EvLogWarning t] /\ cancelled ev = [] /\
    heap m' = heap m /\
    GPU (ctx m') = GPU (ctx m) /\
    _currentSyncPoint (ctx m') = _currentSyncPoint (ctx m) /\
    _totalTasksDoneCount (ctx m') = _totalTasksDoneCount (ctx m) /\
    (~ In t (_tasksDone (ctx m)) -> ctx m' = ctx m) /\
    (In t (_tasksDone (ctx m)) ->
     exists pre post,
       _tasksDone (ctx m) = pre ++ t :: post /\ ~ In t pre /\
       _tasksDone (ctx m') = pre ++ post) /\
    (NoDup (_tasksDone (ctx m)) -> ~ In t (_tasksDone (ctx m'))).
Proof.
  eexists. eexists. split; [reflexivity|]. cbn.
  repeat (split; [reflexivity|]).
  split; [|split].
  - intros Hout. rewrite (Remove_absent _ _ Hout). now destruct (ctx m).
  - apply Remove_present.
  - apply Remove_NoDup.
Qed.

(** C8: right after construction the sync point is 10, which is strictly
    positive and so greater than a sync point of zero on a fresh task, and no
    task is pending. *)
Theorem C8_constructor_baseline (device : GPUDevice) :
  _currentSyncPoint (Constructor device) = 10 /\
  0 < _currentSyncPoint (Constructor device) /\
  _tasksDone (Constructor device) = [] /\
  _totalTasksDoneCount (Constructor device) = 0.
Proof. cbn. repeat split; lia. Qed.

(** C10: [Run] takes nothing out of the pending sequence: the earlier tasks
    and the submitted one are pending when it returns, also when [Execute]
    left the task finished; the other fields of the context are unchanged;
    [OnFrameEnd] does not touch the context either. *)
Theorem C10_Run_removes_nothing m t :
  exists m',
    Run (Some t) m = Return m' /\
    _tasksDone (ctx m') = _tasksDone (ctx m) ++ [t] /\
    (forall u, In u (_tasksDone (ctx m)) -> In u (_tasksDone (ctx m'))) /\
    (GetState (heap m' t) = Finished -> In t (_tasksDone (ctx m'))) /\
    GPU (ctx m') = GPU (ctx m) /\
    _currentSyncPoint (ctx m') = _currentSyncPoint (ctx m) /\
    _totalTasksDoneCount (ctx m') = _totalTasksDoneCount (ctx m) /\
    OnFrameEnd m' = Return m'.
Proof.
  eexists. split; [reflexivity|]. cbn.
  split; [reflexivity|].
  split; [intros u Hin; apply in_or_app; now left|].
  split; [intros _; apply in_or_app; right; now left|].
  repeat split.
Qed.

End Properties.

(** * Further properties of the member functions *)

Section Frames.
Context {Obj : Type} {TaskImpl : GPUTaskClass Obj}.

Implicit Types (m : Machine Obj) (h : GPUTask -> Obj) (t task : GPUTask)
  (tasks pre post : list GPUTask) (now : GPUSyncPoint).

(** ** More on one visit and on the pass *)

Lemma visit_result now u h h1 ev removed :
  visit now u h = (h1, ev, removed) ->
  removed = IsFinished (GetState (h1 u)) /\
  (forall t, t <> u -> h1 t = h t) /\
  (forall e, In e ev -> e = EvGetSyncPoint u \/ e = EvGetState u \/ e = EvSync u).
Proof.
  unfold visit.
  destruct (GetSyncPoint (h u) <=? now);
    [destruct (IsFinished (GetState (h u))) eqn:Hfin; cbn [negb]|];
    intros [= <- <- <-].
  - split; [now rewrite Hfin|]. split; [reflexivity|]. cbn. intuition.
  - rewrite upd_same. split; [reflexivity|].
    split; [intros t Hne; now apply upd_other|]. cbn. intuition.
  - split; [reflexivity|]. split; [reflexivity|]. cbn. intuition.
Qed.

(** The pass leaves the objects of the tasks it does not hold alone. *)
Lemma sweep_heap_other now t tasks : forall h,
  ~ In t tasks -> heap_after (sweep_list now tasks h) t = h t.
Proof.
  induction tasks as [|u rest IH]; intros h Hout; [reflexivity|].
  cbn [sweep_list].
  destruct (visit now u h) as [[h1 ev] removed] eqn:Hv.
  destruct (visit_result _ _ _ _ _ _ Hv) as (_ & Hother & _).
  cbn [heap_after]. rewrite IH by (intros Hin; apply Hout; now right).
  apply Hother. intros ->. apply Hout. now left.
Qed.

(** The pass only reads sync points and states and calls [Sync], and only on
    the tasks it holds. *)
Lemma sweep_calls_kinds now tasks : forall h e,
  In e (calls (sweep_list now tasks h)) ->
  exists t, In t tasks /\
    (e = EvGetSyncPoint t \/ e = EvGetState t \/ e = EvSync t).
Proof.
  induction tasks as [|u rest IH]; intros h e Hin; [destruct Hin|].
  cbn [sweep_list] in Hin.
  destruct (visit now u h) as [[h1 ev] removed] eqn:Hv.
  destruct (visit_result _ _ _ _ _ _ Hv) as (_ & _ & Hkinds).
  cbn [calls] in Hin. apply in_app_or in Hin as [Hin|Hin].
  - exists u. split; [now left|now apply Hkinds].
  - destruct (IH h1 e Hin) as (t & Ht & He). exists t. split; [now right|exact He].
Qed.

Lemma sweep_kept_incl now tasks : forall h t,
  In t (kept (sweep_list now tasks h)) -> In t tasks.
Proof.
  induction tasks as [|u rest IH]; intros h t Hin; [destruct Hin|].
  cbn [sweep_list] in Hin.
  destruct (visit now u h) as [[h1 ev] removed].
  destruct removed; cbn [kept] in Hin.
  - right. now apply (IH h1).
  - destruct Hin as [->|Hin]; [now left|right; now apply (IH h1)].
Qed.

(** Without duplicates, the pass keeps the tasks that are not finished when
    it ends, in their order. *)
Lemma sweep_kept_filter now tasks : forall h,
  NoDup tasks ->
  let r := sweep_list now tasks h in
  kept r = filter (fun t => negb (IsFinished (GetState (heap_after r t)))) tasks.
Proof.
  induction tasks as [|u rest IH]; intros h Hnd; [reflexivity|].
  inversion Hnd as [|? ? Hu Hrest]; subst.
  cbn [sweep_list].
  destruct (visit now u h) as [[h1 ev] removed] eqn:Hv.
  destruct (visit_result _ _ _ _ _ _ Hv) as (Hrem & _ & _).
  cbn [kept heap_after filter].
  rewrite (sweep_heap_other now u rest h1 Hu), <- Hrem.
  specialize (IH h1 Hrest). cbn zeta in IH.
  destruct removed; cbn [negb]; now rewrite <- IH.
Qed.

(** When no task is due or finished, the pass keeps all of them and calls
    [Sync] on none. *)
Lemma sweep_idle now tasks : forall h,
  (forall t, In t tasks ->
     now < GetSyncPoint (h t) /\ IsFinished (GetState (h t)) = false) ->
  let r := sweep_list now tasks h in
  kept r = tasks /\ heap_after r = h /\ synced (calls r) = [].
Proof.
  induction tasks as [|u rest IH]; intros h Hidle; [now repeat split|].
  cbn [sweep_list].
  destruct (Hidle u (or_introl eq_refl)) as (Hlt & Hnot).
  destruct (visit_case now u h) as [Hdue _|ev Hfin _ _|_ _]; [lia|congruence|].
  destruct (IH h) as (Hk & Hh & Hs).
  { intros t Hin. apply Hidle. now right. }
  cbn [kept heap_after calls]. rewrite synced_app, Hk, Hh, Hs. now repeat split.
Qed.

(** A task that is due and that [Sync] does not finish is synced and kept. *)
Lemma sweep_due_unfinished now t tasks : forall h,
  NoDup tasks -> In t tasks ->
  IsFinished (GetState (h t)) = false ->
  GetSyncPoint (h t) <= now ->
  IsFinished (GetState (Sync (h t))) = false ->
  let r := sweep_list now tasks h in
  In t (kept r) /\
  count_occ Nat.eq_dec (synced (calls r)) t = 1%nat /\
  heap_after r t = Sync (h t).
Proof.
  induction tasks as [|u rest IH]; intros h Hnd Hin Hnot Hdue Hstill; [easy|].
  inversion Hnd as [|? ? Hu Hrest]; subst.
  cbn [sweep_list].
  destruct (Nat.eq_dec u t) as [->|Hne].
  - destruct (visit_case now t h) as [_ _|ev Hfin _ _|Hwait _];
      [|congruence|lia].
    rewrite Hstill. cbn [kept calls heap_after].
    rewrite (sweep_heap_other now t rest _ Hu), upd_same, synced_app.
    split; [now left|split; [|reflexivity]].
    cbn [synced flat_map app count_occ].
    destruct (Nat.eq_dec t t); [|congruence].
    f_equal. apply count_occ_not_In. intros Hs.
    apply In_synced in Hs. apply sweep_calls_kinds in Hs as (t' & Ht' & He).
    destruct He as [He|[He|He]]; try discriminate.
    injection He as <-. contradiction.
  - assert (Hin' : In t rest) by (destruct Hin; congruence).
    destruct (visit now u h) as [[h1 ev] removed] eqn:Hv.
    destruct (visit_result _ _ _ _ _ _ Hv) as (_ & Hother & Hkinds).
    destruct (IH h1) as (Hk & Hsy & Hh);
      rewrite ?Hother by congruence; auto.
    cbn [kept calls heap_after]. rewrite synced_app, count_occ_app.
    split; [destruct removed; [exact Hk|now right]|].
    split; [|now rewrite Hh, Hother by congruence].
    assert (Hnone : count_occ Nat.eq_dec (synced ev) t = 0%nat).
    { apply count_occ_not_In. intros Hs.
      apply In_synced, Hkinds in Hs. destruct Hs as [He|[He|He]]; congruence. }
    unfold GPUTask in *. rewrite Hnone. exact Hsy.
Qed.

(** ** Every frame *)

(** X1: [OnFrameBegin] visits every entry of the pending sequence once, from
    the first to the last, however many entries it removes on the way. *)
Theorem OnFrameBegin_visits_each_pending_task_once m :
  exists m' ev,
    OnFrameBegin m = Return m' /\
    log m' = log m ++ ev /\
    visited ev = _tasksDone (ctx m).
Proof.
  rewrite OnFrameBegin_sweep. eexists. eexists.
  split; [reflexivity|]. split; [reflexivity|]. apply sweep_visited.
Qed.

(** X2: when no task is pending twice, the tasks pending after
    [OnFrameBegin] are the tasks pending before it that are not [Finished]
    when it returns, in the same order; so no pending task is [Finished]
    after a frame has begun. *)
Theorem OnFrameBegin_keeps_the_unfinished m :
  NoDup (_tasksDone (ctx m)) ->
  exists m',
    OnFrameBegin m = Return m' /\
    _tasksDone (ctx m') =
      filter (fun t => negb (IsFinished (GetState (heap m' t))))
             (_tasksDone (ctx m)) /\
    (forall t, In t (_tasksDone (ctx m')) -> GetState (heap m' t) <> Finished).
Proof.
  intros Hnd. rewrite OnFrameBegin_sweep. eexists. split; [reflexivity|].
  pose proof (sweep_kept_filter (_currentSyncPoint (ctx m) + 1) _ (heap m) Hnd) as Hk.
  cbn zeta in Hk. cbn [swept_machine ctx heap _tasksDone app].
  split; [exact Hk|].
  intros t Hin. rewrite Hk in Hin. apply filter_In in Hin as (_ & Hf).
  apply IsFinished_false. now apply negb_true_iff.
Qed.

(** X3: [OnFrameBegin] only reads the sync point and the state of pending
    tasks and calls [Sync] on pending tasks: it calls nothing else, nothing
    on a task that is not pending, and leaves the objects of the tasks that
    are not pending as they were. *)
Theorem OnFrameBegin_touches_pending_tasks_only m :
  exists m' ev,
    OnFrameBegin m = Return m' /\
    log m' = log m ++ ev /\
    (forall e, In e ev ->
       exists t, In t (_tasksDone (ctx m)) /\
         (e = EvGetSyncPoint t \/ e = EvGetState t \/ e = EvSync t)) /\
    (forall t, ~ In t (_tasksDone (ctx m)) -> heap m' t = heap m t) /\
    GPU (ctx m') = GPU (ctx m).
Proof.
  rewrite OnFrameBegin_sweep. eexists. eexists.
  split; [reflexivity|]. split; [reflexivity|].
  split; [apply sweep_calls_kinds|].
  split; [|reflexivity]. intros t Hout. now apply sweep_heap_other.
Qed.

(** X4: [OnFrameBegin] adds no task to the pending sequence and counts every
    entry it removes exactly once: the count of completed tasks grows by the
    number of entries removed, so it never decreases. *)
Theorem OnFrameBegin_counts_every_removal m :
  exists m',
    OnFrameBegin m = Return m' /\
    (forall t, In t (_tasksDone (ctx m')) -> In t (_tasksDone (ctx m))) /\
    (length (_tasksDone (ctx m')) <= length (_tasksDone (ctx m)))%nat /\
    _totalTasksDoneCount (ctx m') =
      _totalTasksDoneCount (ctx m)
      + (Z.of_nat (length (_tasksDone (ctx m)))
         - Z.of_nat (length (_tasksDone (ctx m')))) /\
    _totalTasksDoneCount (ctx m) <= _totalTasksDoneCount (ctx m').
Proof.
  rewrite OnFrameBegin_sweep. eexists. split; [reflexivity|].
  pose proof (sweep_kept_length (_currentSyncPoint (ctx m) + 1)
                (_tasksDone (ctx m)) (heap m)) as Hlen.
  cbn [swept_machine ctx heap _tasksDone _totalTasksDoneCount app with_ctx
       set_currentSyncPoint].
  split; [apply sweep_kept_incl|]. split; [exact Hlen|]. split; lia.
Qed.

(** X5: when every pending task has its sync point beyond the advanced
    counter and is not [Finished], [OnFrameBegin] changes the counter only:
    the pending sequence, the count and the task objects are as before and
    [Sync] is not called. *)
Theorem OnFrameBegin_idle_when_nothing_is_due m :
  (forall t, In t (_tasksDone (ctx m)) ->
     _currentSyncPoint (ctx m) + 1 < GetSyncPoint (heap m t) /\
     GetState (heap m t) <> Finished) ->
  exists m' ev,
    OnFrameBegin m = Return m' /\
    log m' = log m ++ ev /\
    synced ev = [] /\
    heap m' = heap m /\
    ctx m' = set_currentSyncPoint (_currentSyncPoint (ctx m) + 1) (ctx m).
Proof.
  intros Hidle. rewrite OnFrameBegin_sweep.
  destruct (sweep_idle (_currentSyncPoint (ctx m) + 1) (_tasksDone (ctx m)) (heap m))
    as (Hk & Hh & Hs).
  { intros t Hin. destruct (Hidle t Hin) as (Hlt & Hnot).
    split; [exact Hlt|now apply IsFinished_false]. }
  eexists. eexists. split; [reflexivity|]. split; [reflexivity|].
  split; [exact Hs|]. split; [exact Hh|].
  unfold swept_machine, set_currentSyncPoint.
  cbn [ctx GPU _currentSyncPoint _tasksDone _totalTasksDoneCount with_ctx app].
  rewrite Hk. f_equal. lia.
Qed.

(** X6: a pending task that is due and not [Finished], and that [Sync] does
    not bring to [Finished], is synced once by [OnFrameBegin] and stays
    pending (no task being pending twice). *)
Theorem OnFrameBegin_keeps_task_that_Sync_does_not_finish m t :
  NoDup (_tasksDone (ctx m)) ->
  In t (_tasksDone (ctx m)) ->
  GetState (heap m t) <> Finished ->
  GetSyncPoint (heap m t) <= _currentSyncPoint (ctx m) + 1 ->
  GetState (Sync (heap m t)) <> Finished ->
  exists m' ev,
    OnFrameBegin m = Return m' /\
    log m' = log m ++ ev /\
    count_occ Nat.eq_dec (synced ev) t = 1%nat /\
    heap m' t = Sync (heap m t) /\
    In t (_tasksDone (ctx m')).
Proof.
  intros Hnd Hin Hnot Hdue Hstill.
  apply IsFinished_false in Hnot. apply IsFinished_false in Hstill.
  rewrite OnFrameBegin_sweep.
  destruct (sweep_due_unfinished (_currentSyncPoint (ctx m) + 1) t
              (_tasksDone (ctx m)) (heap m) Hnd Hin Hnot Hdue Hstill)
    as (Hk & Hsy & Hh).
  eexists. eexists. split; [reflexivity|]. split; [reflexivity|].
  split; [exact Hsy|]. split; [exact Hh|exact Hk].
Qed.

(** ** Several frames *)

Lemma wait_frames t k : forall m,
  _currentSyncPoint (ctx m) + Z.of_nat k < GetSyncPoint (heap m t) ->
  exists m' ev,
    run (repeat OpOnFrameBegin k) m = Return m' /\
    log m' = log m ++ ev /\
    _currentSyncPoint (ctx m') = _currentSyncPoint (ctx m) + Z.of_nat k /\
    ~ In t (synced ev) /\
    heap m' t = heap m t /\
    (IsFinished (GetState (heap m t)) = false ->
     count_occ Nat.eq_dec (_tasksDone (ctx m')) t =
     count_occ Nat.eq_dec (_tasksDone (ctx m)) t).
Proof.
  induction k as [|k IH]; intros m Hlt.
  - exists m, []. cbn [repeat run]. rewrite app_nil_r.
    repeat split; (lia || tauto || reflexivity).
  - cbn [repeat run step]. rewrite OnFrameBegin_sweep. cbn [bind].
    set (r := sweep_list (_currentSyncPoint (ctx m) + 1) (_tasksDone (ctx m)) (heap m)).
    destruct (sweep_not_due (_currentSyncPoint (ctx m) + 1) t
                (_tasksDone (ctx m)) (heap m)) as (Hsy & Hh & Hk); [lia|].
    fold r in Hsy, Hh, Hk.
    set (m1 := swept_machine _ _ _ r).
    destruct (IH m1) as (m' & ev & Hrun & Hlog & Hsp & Hsy' & Hh' & Hk').
    { cbn. fold r. rewrite Hh. lia. }
    exists m', (calls r ++ ev). split; [exact Hrun|].
    split; [rewrite Hlog; cbn; now rewrite app_assoc|].
    split; [rewrite Hsp; cbn; lia|].
    split; [rewrite synced_app; intros Hin; apply in_app_or in Hin; tauto|].
    split; [rewrite Hh'; exact Hh|].
    intros Hnot. rewrite Hk'; [exact (Hk Hnot)|].
    cbn [m1 swept_machine heap]. now rewrite Hh.
Qed.

(** X7: a pending task that is not [Finished], that [Sync] finishes and whose
    sync point lies [k + 1] beyond the context's is left alone by the next
    [k] calls of [OnFrameBegin] (it stays pending and is not synced); the
    call after those, which brings the context's sync point to the task's,
    syncs it once and removes it. *)
Theorem task_is_synced_in_the_frame_of_its_sync_point (k : nat) m t :
  In t (_tasksDone (ctx m)) ->
  GetState (heap m t) <> Finished ->
  GetState (Sync (heap m t)) = Finished ->
  GetSyncPoint (heap m t) = _currentSyncPoint (ctx m) + Z.of_nat (S k) ->
  exists m1 m2 ev1 ev2,
    run (repeat OpOnFrameBegin k) m = Return m1 /\
    log m1 = log m ++ ev1 /\
    ~ In (EvSync t) ev1 /\
    In t (_tasksDone (ctx m1)) /\
    OnFrameBegin m1 = Return m2 /\
    log m2 = log m1 ++ ev2 /\
    count_occ Nat.eq_dec (synced ev2) t = 1%nat /\
    GetState (heap m2 t) = Finished /\
    ~ In t (_tasksDone (ctx m2)) /\
    _currentSyncPoint (ctx m2) = GetSyncPoint (heap m t).
Proof.
  intros Hin Hnot Hsync Hpoint. apply IsFinished_false in Hnot.
  destruct (wait_frames t k m) as (m1 & ev1 & Hrun & Hlog & Hsp & Hsy & Hh & Hk);
    [lia|].
  specialize (Hk Hnot).
  assert (Hin1 : In t (_tasksDone (ctx m1))).
  { apply (count_occ_In Nat.eq_dec). rewrite Hk. now apply (count_occ_In Nat.eq_dec). }
  destruct (sweep_due (_currentSyncPoint (ctx m1) + 1) t (_tasksDone (ctx m1)) (heap m1))
    as (Hk2 & Hsy2 & Hh2); rewrite ?Hh; auto; [lia|].
  exists m1. eexists. exists ev1. eexists.
  split; [exact Hrun|]. split; [exact Hlog|].
  split; [now rewrite <- In_synced|]. split; [exact Hin1|].
  split; [apply OnFrameBegin_sweep|]. split; [reflexivity|].
  split; [exact Hsy2|].
  split; [cbn [swept_machine heap]; now rewrite Hh2, Hh|].
  split; [exact Hk2|]. cbn. lia.
Qed.

(** ** Sequences of calls *)

Lemma Remove_length t tasks :
  (length (Array.Remove Nat.eqb t tasks) <= length tasks
   /\ length tasks <= S (length (Array.Remove Nat.eqb t tasks)))%nat.
Proof.
  induction tasks as [|u rest IH]; simpl; [lia|].
  destruct (Nat.eqb t u); simpl; unfold GPUTask in *; lia.
Qed.

Lemma Remove_incl t u tasks :
  In u (Array.Remove Nat.eqb t tasks) -> In u tasks.
Proof.
  induction tasks as [|x rest IH]; cbn [Array.Remove]; [easy|].
  destruct (Nat.eqb t x); cbn; tauto.
Qed.

Lemma Remove_keeps_NoDup t tasks :
  NoDup tasks -> NoDup (Array.Remove Nat.eqb t tasks).
Proof.
  induction 1 as [|x rest Hx Hnd IH]; cbn [Array.Remove]; [constructor|].
  destruct (Nat.eqb t x); [exact Hnd|].
  constructor; [|exact IH]. intros Hin. apply Hx. now apply Remove_incl in Hin.
Qed.

Lemma Remove_app_last t tasks :
  ~ In t tasks -> Array.Remove Nat.eqb t (tasks ++ [t]) = tasks.
Proof.
  induction tasks as [|x rest IH]; intros Hout; cbn [Array.Remove app].
  - now rewrite Nat.eqb_refl.
  - destruct (Nat.eqb_spec t x) as [->|Hne]; [exfalso; apply Hout; now left|].
    rewrite IH; [reflexivity|]. intros Hin. apply Hout. now right.
Qed.

Lemma step_balance op m :
  exists m',
    step op m = Return m' /\
    _totalTasksDoneCount (ctx m) <= _totalTasksDoneCount (ctx m') /\
    _totalTasksDoneCount (ctx m) + Z.of_nat (length (_tasksDone (ctx m)))
      + submissions [op] - withdrawals [op]
    <= _totalTasksDoneCount (ctx m') + Z.of_nat (length (_tasksDone (ctx m')))
    <= _totalTasksDoneCount (ctx m) + Z.of_nat (length (_tasksDone (ctx m)))
       + submissions [op].
Proof.
  unfold submissions, withdrawals.
  destruct op as [t|t| |]; cbn [step].
  - eexists. split; [reflexivity|]. simpl. unfold Array.Add.
    rewrite length_app. simpl. unfold GPUTask in *. lia.
  - eexists. split; [reflexivity|]. simpl.
    pose proof (Remove_length t (_tasksDone (ctx m))).
    unfold GPUTask in *. lia.
  - rewrite OnFrameBegin_sweep. eexists. split; [reflexivity|].
    pose proof (sweep_kept_length (_currentSyncPoint (ctx m) + 1)
                  (_tasksDone (ctx m)) (heap m)).
    simpl. unfold GPUTask in *. lia.
  - eexists. split; [reflexivity|]. simpl. lia.
Qed.

Lemma submissions_cons op ops : submissions (op :: ops) = submissions [op] + submissions ops.
Proof. unfold submissions. destruct op; cbn [filter length]; lia. Qed.

Lemma withdrawals_cons op ops : withdrawals (op :: ops) = withdrawals [op] + withdrawals ops.
Proof. unfold withdrawals. destruct op; cbn [filter length]; lia. Qed.

(** X8: over any sequence of [Run], [OnCancelSync], [OnFrameBegin] and
    [OnFrameEnd] calls with tasks that are not null, every call returns, the
    count of completed tasks never decreases, and completed plus pending
    grows by the number of tasks submitted, less at most one for each
    [OnCancelSync]: no submitted task is lost and none is counted twice. *)
Theorem completed_and_pending_account_for_submissions (ops : list Op) : forall m,
  exists m',
    run ops m = Return m' /\
    _totalTasksDoneCount (ctx m) <= _totalTasksDoneCount (ctx m') /\
    _totalTasksDoneCount (ctx m) + Z.of_nat (length (_tasksDone (ctx m)))
      + submissions ops - withdrawals ops
    <= _totalTasksDoneCount (ctx m') + Z.of_nat (length (_tasksDone (ctx m')))
    <= _totalTasksDoneCount (ctx m) + Z.of_nat (length (_tasksDone (ctx m)))
       + submissions ops.
Proof.
  induction ops as [|op ops IH]; intros m.
  - exists m. cbn. repeat split; lia.
  - destruct (step_balance op m) as (m1 & Hstep & Hmono & Hbal).
    destruct (IH m1) as (m' & Hrun & Hmono' & Hbal').
    exists m'. cbn [run]. rewrite Hstep. cbn [bind].
    split; [exact Hrun|].
    rewrite submissions_cons, withdrawals_cons. lia.
Qed.

(** X9: whatever the calls, a task that is pending at the end was pending at
    the start or was submitted by a [Run] of the sequence: nothing but [Run]
    puts a task into the pending sequence. *)
Theorem pending_tasks_were_submitted (ops : list Op) : forall m,
  exists m',
    run ops m = Return m' /\
    forall t, In t (_tasksDone (ctx m')) ->
      In t (_tasksDone (ctx m)) \/ In (OpRun t) ops.
Proof.
  induction ops as [|op ops IH]; intros m.
  - exists m. split; [reflexivity|]. now left.
  - assert (Hstep : exists m1, step op m = Return m1 /\
              forall t, In t (_tasksDone (ctx m1)) ->
                In t (_tasksDone (ctx m)) \/ op = OpRun t).
    { destruct op as [u|u| |]; cbn [step].
      - eexists. split; [reflexivity|]. cbn. unfold Array.Add.
        intros t Hin. apply in_app_or in Hin as [Hin|[->|[]]]; [now left|now right].
      - eexists. split; [reflexivity|]. cbn.
        intros t Hin. left. now apply Remove_incl in Hin.
      - rewrite OnFrameBegin_sweep. eexists. split; [reflexivity|].
        intros t Hin. left. now apply sweep_kept_incl in Hin.
      - eexists. split; [reflexivity|]. now left. }
    destruct Hstep as (m1 & Hstep & Hfrom).
    destruct (IH m1) as (m' & Hrun & Hfrom').
    exists m'. cbn [run]. rewrite Hstep. cbn [bind]. split; [exact Hrun|].
    intros t Hin. destruct (Hfrom' t Hin) as [Hin1|Hops]; [|right; now right].
    destruct (Hfrom t Hin1) as [Hin0 | ->]; [now left|right; now left].
Qed.

(** X10: a pending sequence without duplicates stays without duplicates
    under every call, provided [Run] is called with a task that is not
    pending. *)
Theorem pending_stays_duplicate_free (op : Op) m :
  NoDup (_tasksDone (ctx m)) ->
  (forall t, op = OpRun t -> ~ In t (_tasksDone (ctx m))) ->
  exists m', step op m = Return m' /\ NoDup (_tasksDone (ctx m')).
Proof.
  intros Hnd Hfresh. destruct op as [u|u| |]; cbn [step].
  - eexists. split; [reflexivity|]. cbn. unfold Array.Add.
    apply NoDup_app; [exact Hnd|repeat constructor; easy|].
    intros t Hin [Heq|[]]. subst t. now apply (Hfresh u).
  - eexists. split; [reflexivity|]. cbn. now apply Remove_keeps_NoDup.
  - rewrite OnFrameBegin_sweep. eexists. split; [reflexivity|].
    cbn [swept_machine ctx _tasksDone app].
    rewrite (sweep_kept_filter _ _ _ Hnd). now apply NoDup_filter.
  - eexists. split; [reflexivity|]. exact Hnd.
Qed.

(** X11: [Run] of a task that is not pending followed by [OnCancelSync] of
    the same task leaves the context as it was before the [Run]; the task
    has been executed and a warning logged, and the next [OnFrameBegin] does
    not visit the task. *)
Theorem Run_then_OnCancelSync_restores_the_context m t :
  ~ In t (_tasksDone (ctx m)) ->
  exists m1 m2 ev,
    run [OpRun t; OpOnCancelSync t] m = Return m1 /\
    ctx m1 = ctx m /\
    log m1 =
      log m ++ [EvExecute t (set_tasksDone (_tasksDone (ctx m) ++ [t]) (ctx m));
                EvLogWarning t] /\
    OnFrameBegin m1 = Return m2 /\
    log m2 = log m1 ++ ev /\
    ~ In t (visited ev) /\
    heap m2 t = Execute (set_tasksDone (_tasksDone (ctx m) ++ [t]) (ctx m)) (heap m t).
Proof.
  intros Hout.
  assert (Hctx : set_tasksDone
            (Array.Remove Nat.eqb t (Array.Add t (_tasksDone (ctx m)))) (ctx m) = ctx m).
  { unfold Array.Add. rewrite (Remove_app_last _ _ Hout). now destruct (ctx m). }
  eexists. eexists. eexists. cbn [run step Run OnCancelSync bind].
  split; [reflexivity|].
  unfold with_ctx, emit, invoke, set_tasksDone in *.
  cbn [ctx heap log GPU _currentSyncPoint _tasksDone _totalTasksDoneCount] in *.
  split; [exact Hctx|]. split; [now rewrite <- app_assoc|].
  rewrite OnFrameBegin_sweep. split; [reflexivity|]. split; [reflexivity|].
  cbn [ctx heap _tasksDone]. rewrite sweep_visited.
  unfold Array.Add. rewrite (Remove_app_last _ _ Hout).
  split; [exact Hout|].
  cbn [swept_machine heap with_ctx]. rewrite sweep_heap_other by exact Hout.
  apply upd_same.
Qed.

(** A call that is not a [Run] of [t], made while [t] is not pending, calls
    nothing on [t] and leaves it out of the pending sequence. *)
Lemma step_leaves_untracked_task t op m :
  ~ In t (_tasksDone (ctx m)) -> op <> OpRun t ->
  exists m' ev,
    step op m = Return m' /\
    log m' = log m ++ ev /\
    (forall e, In e ev ->
       e <> EvGetSyncPoint t /\ e <> EvGetState t /\ e <> EvSync t /\
       e <> EvCancelSync t /\ forall c, e <> EvExecute t c) /\
    heap m' t = heap m t /\
    ~ In t (_tasksDone (ctx m')).
Proof.
  intros Hout Hop. destruct op as [u|u| |]; cbn [step].
  - assert (Hne : t <> u) by congruence.
    eexists. eexists. split; [reflexivity|]. cbn. split; [reflexivity|].
    split; [intros e [<-|[]]; repeat split; congruence|].
    split; [now apply upd_other|].
    unfold Array.Add. intros Hin. apply in_app_or in Hin as [Hin|[Heq|[]]];
      [tauto|congruence].
  - eexists. eexists. split; [reflexivity|]. cbn. split; [reflexivity|].
    split; [intros e [<-|[]]; repeat split; congruence|].
    split; [reflexivity|]. intros Hin. now apply Remove_incl in Hin.
  - rewrite OnFrameBegin_sweep. eexists. eexists.
    split; [reflexivity|]. split; [reflexivity|].
    split; [|split; [now apply sweep_heap_other|]].
    + intros e Hin. apply sweep_calls_kinds in Hin as (u & Hu & He).
      assert (Hne : u <> t) by congruence.
      destruct He as [-> | [-> | ->]]; repeat split; congruence.
    + intros Hin. now apply sweep_kept_incl in Hin.
  - exists m, []. split; [reflexivity|]. rewrite app_nil_r.
    split; [reflexivity|]. split; [intros e []|]. now split.
Qed.

(** X12: once a task is out of the pending sequence, no later call makes the
    context call into it, read it or change it, until it is submitted again:
    over any sequence of calls without a [Run] of the task, the log holds no
    [GetSyncPoint], [GetState], [Sync], [CancelSync] or [Execute] on it and
    its object is as it was. *)
Theorem untracked_task_is_never_called (ops : list Op) t : forall m,
  ~ In t (_tasksDone (ctx m)) ->
  ~ In (OpRun t) ops ->
  exists m' ev,
    run ops m = Return m' /\
    log m' = log m ++ ev /\
    (forall e, In e ev ->
       e <> EvGetSyncPoint t /\ e <> EvGetState t /\ e <> EvSync t /\
       e <> EvCancelSync t /\ forall c, e <> EvExecute t c) /\
    heap m' t = heap m t /\
    ~ In t (_tasksDone (ctx m')).
Proof.
  induction ops as [|op ops IH]; intros m Hout Hops.
  - exists m, []. split; [reflexivity|]. rewrite app_nil_r.
    split; [reflexivity|]. split; [intros e []|]. now split.
  - destruct (step_leaves_untracked_task t op m Hout)
      as (m1 & ev1 & Hstep & Hlog1 & Hev1 & Hh1 & Hout1).
    { intros ->. apply Hops. now left. }
    destruct (IH m1 Hout1) as (m' & ev & Hrun & Hlog & Hev & Hh & Hout').
    { intros Hin. apply Hops. now right. }
    exists m', (ev1 ++ ev). cbn [run]. rewrite Hstep. cbn [bind].
    split; [exact Hrun|].
    split; [now rewrite Hlog, Hlog1, app_assoc|].
    split; [|split; [now rewrite Hh, Hh1|exact Hout']].
    intros e Hin. apply in_app_or in Hin as [Hin|Hin]; auto.
Qed.

End Frames.

(** * The results at concrete machines *)

(** Tasks 1, 2, 3 wait for the sync points 11, 12, 13 and the context is at
    13: one sweep visits them in that order and takes all three out. *)
Lemma C1_witness :
  exists m' ev,
    OnFrameBegin
      (SpecTask.pending_at 13 [1; 2; 3]%nat 7
         (fun t => SpecTask.waiting (10 + Z.of_nat t))) = Return m' /\
    log m' = ev /\
    visited ev = [1; 2; 3]%nat /\
    _tasksDone (ctx m') = [] /\
    _totalTasksDoneCount (ctx m') = 7 + 3.
Proof.
  destruct (C1_sweep_removes_three_in_order
              (SpecTask.pending_at 13 [1; 2; 3]%nat 7
                 (fun t => SpecTask.waiting (10 + Z.of_nat t)))
              1%nat 2%nat 3%nat)
    as (m' & ev & Hrun & Hlog & Hvis & Hpend & Htotal & _).
  - reflexivity.
  - intros t [<-|[<-|[<-|[]]]]; cbn; split; (lia || reflexivity).
  - exists m', ev. repeat split; assumption.
Defined.

(** A task whose work takes one frame is submitted at sync point 10, so its
    sync point is 11 = 10 + 1; the first [OnFrameBegin] moves the context to
    11, finds the task due, syncs it and takes it out. *)
Lemma C3_first_frame_syncs_task_due_next :
  exists m1 m2,
    Run (Some 0%nat) (SpecTask.boot (SpecTask.fresh 1)) = Return m1 /\
    GetSyncPoint (heap m1 0%nat) = _currentSyncPoint (ctx m1) + 1 /\
    GetState (heap m1 0%nat) = Executing /\
    GetState (Sync (heap m1 0%nat)) = Finished /\
    OnFrameBegin m1 = Return m2 /\
    ~ In 0%nat (_tasksDone (ctx m2)) /\
    synced (log m2) = [0%nat] /\
    _totalTasksDoneCount (ctx m2) = _totalTasksDoneCount (ctx m1) + 1.
Proof.
  eexists. eexists.
  split; [reflexivity|]. split; [reflexivity|]. split; [reflexivity|].
  split; [reflexivity|]. split; [reflexivity|].
  split; [intros []|]. split; reflexivity.
Qed.

(** The same submission with work that takes two frames: the task stays over
    the first frame and goes with the second. *)
Lemma C3_witness :
  exists m1 m2 m3,
    Run (Some 0%nat) (SpecTask.boot (SpecTask.fresh 2)) = Return m1 /\
    OnFrameBegin m1 = Return m2 /\
    In 0%nat (_tasksDone (ctx m2)) /\
    OnFrameBegin m2 = Return m3 /\
    ~ In 0%nat (_tasksDone (ctx m3)) /\
    _totalTasksDoneCount (ctx m3) = _totalTasksDoneCount (ctx m2) + 1.
Proof.
  eexists.
  destruct (C3_task_due_two_frames_ahead
              (SpecTask.boot (SpecTask.fresh 2)) 0%nat _ eq_refl)
    as (m2 & m3 & ev1 & ev2 & H1 & _ & Hin & _ & H2 & _ & _ & _ & Hout & _ & Hone).
  - reflexivity.
  - discriminate.
  - reflexivity.
  - exists m2, m3. split; [reflexivity|].
    repeat split; try assumption. now apply Hone.
Defined.

(** A task waiting for sync point 100 is not synced at sync point 11. *)
Lemma C4_witness :
  exists m' ev,
    OnFrameBegin
      (SpecTask.pending_at 10 [5]%nat 0 (fun _ => SpecTask.waiting 100)) = Return m' /\
    log m' = ev /\
    ~ In (EvSync 5%nat) ev /\
    heap m' 5%nat = SpecTask.waiting 100.
Proof.
  destruct (C4_no_sync_before_the_point
              (SpecTask.pending_at 10 [5]%nat 0 (fun _ => SpecTask.waiting 100)) 5%nat)
    as (m' & ev & Hrun & Hlog & Hno & Hheap).
  - cbn. lia.
  - exists m', ev. repeat split; assumption.
Defined.

(** Two pending tasks at destruction: two warnings, two cancellations. *)
Lemma C5_witness :
  exists m' ev,
    Destructor MainThread
      (SpecTask.pending_at 10 [4; 9]%nat 0 (fun _ => SpecTask.waiting 12)) = Return m' /\
    log m' = ev /\
    cancelled ev = [4; 9]%nat /\
    warned ev = [4; 9]%nat /\
    _tasksDone (ctx m') = [].
Proof.
  destruct (C5_destructor_cancels_every_pending_task 2
              (SpecTask.pending_at 10 [4; 9]%nat 0 (fun _ => SpecTask.waiting 12)))
    as (m' & ev & Hrun & Hlog & _ & Hcan & Hwarn & _ & _ & Hpend & _).
  - reflexivity.
  - exists m', ev. repeat split; assumption.
Defined.

(** A finished task with sync point 100 goes at sync point 11. *)
Lemma C9_witness :
  exists m' ev,
    OnFrameBegin
      (SpecTask.pending_at 10 [7]%nat 0 (fun _ => SpecTask.done 100)) = Return m' /\
    log m' = ev /\
    ~ In 7%nat (_tasksDone (ctx m')) /\
    ~ In (EvSync 7%nat) ev /\
    0 < _totalTasksDoneCount (ctx m').
Proof.
  destruct (C9_removal_condition_is_Finished_alone
              (SpecTask.pending_at 10 [7]%nat 0 (fun _ => SpecTask.done 100)) 7%nat)
    as (m' & ev & Hrun & Hlog & _ & _ & Hfin).
  - now left.
  - destruct (Hfin eq_refl) as (Hout & Hno & Hlt).
    exists m', ev. repeat split; assumption.
Defined.

(** Four pending tasks of which the second and the fourth are not due: the
    index loop visits all four in order and keeps those two, in order. *)
Example sweep_keeps_tasks_not_due :
  exists m',
    OnFrameBegin
      (SpecTask.pending_at 10 [1; 2; 3; 4]%nat 0
         (fun t => SpecTask.waiting (if Nat.even t then 50 else 11))) = Return m' /\
    visited (log m') = [1; 2; 3; 4]%nat /\
    synced (log m') = [1; 3]%nat /\
    _tasksDone (ctx m') = [2; 4]%nat /\
    _totalTasksDoneCount (ctx m') = 2.
Proof. eexists. repeat split. Qed.

(** Of two pending tasks with sync point 100 at sync point 10, the finished
    one is taken out and counted and the waiting one stays; neither is
    synced. *)
Example sweep_removes_by_state_not_by_sync_point :
  exists m',
    OnFrameBegin
      (SpecTask.pending_at 10 [1; 2]%nat 0
         (fun t => if Nat.even t then SpecTask.waiting 100 else SpecTask.done 100))
      = Return m' /\
    _tasksDone (ctx m') = [2]%nat /\
    synced (log m') = [] /\
    _totalTasksDoneCount (ctx m') = 1.
Proof. eexists. repeat split. Qed.

(** Work that completes within [Execute] leaves the task finished and
    pending when [Run] returns. *)
Example Run_keeps_task_finished_by_Execute :
  exists m',
    Run (Some 3%nat) (SpecTask.boot SpecTask.trivial) = Return m' /\
    GetState (heap m' 3%nat) = Finished /\
    _tasksDone (ctx m') = [3%nat].
Proof. eexists. repeat split. Qed.

(** The destructor called from another thread stops on its assertion. *)
Example Destructor_off_main_thread :
  Destructor (WorkerThread 1) (SpecTask.boot SpecTask.trivial) = AssertFailed.
Proof. reflexivity. Qed.

(** A task submitted, then withdrawn by [OnCancelSync] before any sweep, is
    not pending and the next sweep does not visit it. *)
Example cancelled_task_is_not_swept :
  exists m',
    run [OpRun 8%nat; OpOnCancelSync 8%nat; OpOnFrameBegin]
      (SpecTask.boot (SpecTask.fresh 1)) = Return m' /\
    _tasksDone (ctx m') = [] /\
    visited (log m') = [] /\
    _currentSyncPoint (ctx m') = 11.
Proof. eexists. repeat split. Qed.

(** ** Further results at concrete machines *)

(** Tasks 1 and 3 are finished by [Sync], task 2 waits for a later point. *)
Lemma OnFrameBegin_keeps_the_unfinished_witness :
  exists m',
    OnFrameBegin
      (SpecTask.pending_at 10 [1; 2; 3]%nat 0
         (fun t => SpecTask.waiting (if Nat.even t then 50 else 11))) = Return m' /\
    _tasksDone (ctx m') = [2]%nat.
Proof.
  destruct (OnFrameBegin_keeps_the_unfinished
              (SpecTask.pending_at 10 [1; 2; 3]%nat 0
                 (fun t => SpecTask.waiting (if Nat.even t then 50 else 11))))
    as (m' & Hrun & Hkept & _).
  - repeat constructor; cbn; intuition congruence.
  - exists m'. split; [exact Hrun|]. rewrite Hkept.
    cbn in Hrun. injection Hrun as <-. reflexivity.
Defined.

Lemma OnFrameBegin_idle_when_nothing_is_due_witness :
  exists m' ev,
    OnFrameBegin
      (SpecTask.pending_at 10 [4; 5]%nat 3 (fun _ => SpecTask.waiting 20)) = Return m' /\
    log m' = ev /\ synced ev = [] /\
    ctx m' = mkContext 1%nat 11 [4; 5]%nat 3.
Proof.
  destruct (OnFrameBegin_idle_when_nothing_is_due
              (SpecTask.pending_at 10 [4; 5]%nat 3 (fun _ => SpecTask.waiting 20)))
    as (m' & ev & Hrun & Hlog & Hsy & _ & Hctx).
  - intros t _. cbn. split; [lia|discriminate].
  - exists m', ev. repeat split; assumption.
Defined.

(** A task that was cancelled stays [Canceled] under [Sync]: it is synced
    and stays pending. *)
Lemma OnFrameBegin_keeps_task_that_Sync_does_not_finish_witness :
  exists m' ev,
    OnFrameBegin
      (SpecTask.pending_at 10 [6]%nat 0
         (fun _ => SpecTask.mkTask Canceled 10 0 false)) = Return m' /\
    log m' = ev /\
    count_occ Nat.eq_dec (synced ev) 6%nat = 1%nat /\
    In 6%nat (_tasksDone (ctx m')).
Proof.
  destruct (OnFrameBegin_keeps_task_that_Sync_does_not_finish
              (SpecTask.pending_at 10 [6]%nat 0
                 (fun _ => SpecTask.mkTask Canceled 10 0 false)) 6%nat)
    as (m' & ev & Hrun & Hlog & Hsy & _ & Hin).
  - repeat constructor. easy.
  - now left.
  - discriminate.
  - cbn. lia.
  - discriminate.
  - exists m', ev. repeat split; assumption.
Defined.

(** A task waiting for sync point 14 at sync point 10: three frames pass,
    the fourth syncs it. *)
Lemma task_is_synced_in_the_frame_of_its_sync_point_witness :
  exists m1 m2,
    run (repeat OpOnFrameBegin 3)
      (SpecTask.pending_at 10 [2]%nat 0 (fun _ => SpecTask.waiting 14)) = Return m1 /\
    In 2%nat (_tasksDone (ctx m1)) /\
    OnFrameBegin m1 = Return m2 /\
    ~ In 2%nat (_tasksDone (ctx m2)) /\
    _currentSyncPoint (ctx m2) = 14.
Proof.
  destruct (task_is_synced_in_the_frame_of_its_sync_point 3
              (SpecTask.pending_at 10 [2]%nat 0 (fun _ => SpecTask.waiting 14)) 2%nat)
    as (m1 & m2 & ev1 & ev2 & Hrun & _ & _ & Hin & Hnext & _ & _ & _ & Hout & Hsp).
  - now left.
  - discriminate.
  - reflexivity.
  - reflexivity.
  - exists m1, m2. repeat split; assumption.
Defined.

Lemma pending_stays_duplicate_free_witness :
  exists m',
    step (OpRun 3%nat)
      (SpecTask.pending_at 10 [1; 2]%nat 0 (fun _ => SpecTask.fresh 1)) = Return m' /\
    NoDup (_tasksDone (ctx m')).
Proof.
  apply (pending_stays_duplicate_free (OpRun 3%nat)
           (SpecTask.pending_at 10 [1; 2]%nat 0 (fun _ => SpecTask.fresh 1))).
  - repeat constructor; cbn; intuition congruence.
  - intros t [= <-]. cbn. intuition congruence.
Defined.

Lemma Run_then_OnCancelSync_restores_the_context_witness :
  exists m1,
    run [OpRun 8%nat; OpOnCancelSync 8%nat]
      (SpecTask.pending_at 10 [1]%nat 0 (fun _ => SpecTask.fresh 1)) = Return m1 /\
    ctx m1 = mkContext 1%nat 10 [1]%nat 0.
Proof.
  destruct (Run_then_OnCancelSync_restores_the_context
              (SpecTask.pending_at 10 [1]%nat 0 (fun _ => SpecTask.fresh 1)) 8%nat)
    as (m1 & _ & _ & Hrun & Hctx & _).
  - cbn. intuition congruence.
  - exists m1. split; assumption.
Defined.

Lemma untracked_task_is_never_called_witness :
  exists m' ev,
    run [OpRun 1%nat; OpOnFrameBegin; OpOnCancelSync 5%nat; OpOnFrameBegin]
      (SpecTask.boot (SpecTask.fresh 1)) = Return m' /\
    log m' = ev /\
    ~ In (EvSync 5%nat) ev /\
    heap m' 5%nat = SpecTask.fresh 1.
Proof.
  destruct (untracked_task_is_never_called
              [OpRun 1%nat; OpOnFrameBegin; OpOnCancelSync 5%nat; OpOnFrameBegin]
              5%nat (SpecTask.boot (SpecTask.fresh 1)))
    as (m' & ev & Hrun & Hlog & Hev & Hheap & _).
  - intros [].
  - cbn. intuition discriminate.
  - exists m', ev. split; [exact Hrun|]. split; [exact Hlog|].
    split; [|exact Hheap]. intros Hin. now apply Hev in Hin.
Defined.
